(** * Oracle AI document loader (langchain-community, [oracleai.ts])

    A shallow embedding of the three components of
    [libs/langchain-community/src/document_loaders/web/oracleai.ts]:

    - [ParseOracleDocMetadata], the SAX-style handler that collects the
      [<title>] text and the [<meta>] tags of an HTML rendering;
    - [OracleDocReader], with the object-id generator and the per-file
      ingestion routine;
    - [OracleDocLoader], whose table path validates identifiers, queries
      the column catalog, runs the extraction query and assembles documents.

    Conventions of the embedding.
    - A JavaScript string is the list of bytes of its UTF-8 encoding (Rocq's
      [string]); every string the code inspects character by character is
      ASCII at the positions it inspects.
    - A [Buffer] is a list of bytes, each a [Z] in [0, 256).
    - A plain object used as a dictionary is the finite map of its own
      properties; the two places where [Object.prototype] shows through (an
      assignment to the key [__proto__], a read of an inherited member) are
      written out in [JS.set_prop] and [JS.get_prop].
    - Exceptions are values of [Exn]; a computation that can throw returns
      [Exn + A].  Database calls are explicit: the connection is a record of
      answers and every executed statement is appended to a trace. *)

From Stdlib Require Import ZArith List String Ascii Lia.
From stdpp Require Import gmap strings list fin_maps.

Local Open Scope string_scope.
Local Open Scope Z_scope.

(** ** Bytes and strings *)

Definition byte_of_ascii (c : ascii) : Z := Z.of_N (N_of_ascii c).

(** The UTF-8 bytes of a string, as [Buffer.from(s, "utf8")] yields them. *)
Definition utf8 (s : string) : list Z := map byte_of_ascii (list_ascii_of_string s).

Definition string_of_chars (cs : list ascii) : string := string_of_list_ascii cs.

(** [s.startsWith(p)] *)
Definition startsWith (s p : string) : bool := String.prefix p s.

(** [s.charAt(i)]: the one-character string at [i], or the empty string
    when [i] is out of range. *)
Definition charAt (s : string) (i : nat) : string :=
  match String.get i s with
  | Some c => String c EmptyString
  | None => EmptyString
  end.

(** [s.padStart(n, "0")] for the one-character filler used by the code. *)
Definition padStart (s : string) (n : nat) (fill : ascii) : string :=
  string_of_chars (repeat fill (n - String.length s)) +:+ s.

(** [s.slice(0, n)] *)
Definition slice0 (s : string) (n : nat) : string := String.substring 0 n s.

Definition is_upper (c : ascii) : bool :=
  let n := nat_of_ascii c in (65 <=? n)%nat && (n <=? 90)%nat.
Definition is_lower (c : ascii) : bool :=
  let n := nat_of_ascii c in (97 <=? n)%nat && (n <=? 122)%nat.
Definition is_digit (c : ascii) : bool :=
  let n := nat_of_ascii c in (48 <=? n)%nat && (n <=? 57)%nat.
Definition is_underscore (c : ascii) : bool := (nat_of_ascii c =? 95)%nat.

(** [s.toUpperCase()] on the ASCII range. *)
Definition toUpperCase (s : string) : string :=
  string_of_chars
    (map (fun c => if is_lower c then ascii_of_nat (nat_of_ascii c - 32) else c)
         (list_ascii_of_string s)).

(** The double-quote character, for the JSON text bound to [:params]. *)
Definition dquote : string := String (ascii_of_nat 34) EmptyString.
(** A line feed, for the multi-line SQL templates. *)
Definition nl : string := String (ascii_of_nat 10) EmptyString.

(** ** Exceptions *)

Inductive Exn : Type :=
  | Error (msg : string)        (* [throw new Error(msg)] *)
  | RangeError (msg : string)   (* raised by [Buffer.writeUInt32BE] *)
  | TypeError (msg : string)    (* raised by a call on a non-callable member *)
  | External (text : string).   (* raised by the driver or the file system;
                                   [text] is its string conversion *)

(** [`${ex}`] *)
Definition exn_to_string (e : Exn) : string :=
  match e with
  | Error m => "Error: " +:+ m
  | RangeError m => "RangeError: " +:+ m
  | TypeError m => "TypeError: " +:+ m
  | External t => t
  end.

Definition bindE {A B} (m : Exn + A) (k : A -> Exn + B) : Exn + B :=
  match m with
  | inl e => inl e
  | inr a => k a
  end.

Notation "'try!' x := m 'in' k" := (bindE m (fun x => k))
  (at level 10, x name, m at level 100, k at level 200).

(** ** SHA-256 ([crypto.createHash("sha256")], FIPS 180-4) *)

Module Sha256.

Definition wrap32 (x : Z) : Z := x mod 2 ^ 32.
Definition add32 (x y : Z) : Z := wrap32 (x + y).
Definition rotr (n x : Z) : Z :=
  Z.lor (Z.shiftr x n) (wrap32 (Z.shiftl x (32 - n))).
Definition not32 (x : Z) : Z := Z.lxor x (2 ^ 32 - 1).

Definition Ch (x y z : Z) : Z := Z.lxor (Z.land x y) (Z.land (not32 x) z).
Definition Maj (x y z : Z) : Z :=
  Z.lxor (Z.lxor (Z.land x y) (Z.land x z)) (Z.land y z).
Definition bsig0 (x : Z) : Z := Z.lxor (Z.lxor (rotr 2 x) (rotr 13 x)) (rotr 22 x).
Definition bsig1 (x : Z) : Z := Z.lxor (Z.lxor (rotr 6 x) (rotr 11 x)) (rotr 25 x).
Definition ssig0 (x : Z) : Z := Z.lxor (Z.lxor (rotr 7 x) (rotr 18 x)) (Z.shiftr x 3).
Definition ssig1 (x : Z) : Z := Z.lxor (Z.lxor (rotr 17 x) (rotr 19 x)) (Z.shiftr x 10).

(** Round constants: the first 32 fractional bits of the cube roots of the
    first 64 primes. *)
Definition round_constants : list Z :=
  [ 1116352408; 1899447441; 3049323471; 3921009573; 961987163;
    1508970993; 2453635748; 2870763221; 3624381080; 310598401;
    607225278; 1426881987; 1925078388; 2162078206; 2614888103;
    3248222580; 3835390401; 4022224774; 264347078; 604807628;
    770255983; 1249150122; 1555081692; 1996064986; 2554220882;
    2821834349; 2952996808; 3210313671; 3336571891; 3584528711;
    113926993; 338241895; 666307205; 773529912; 1294757372;
    1396182291; 1695183700; 1986661051; 2177026350; 2456956037;
    2730485921; 2820302411; 3259730800; 3345764771; 3516065817;
    3600352804; 4094571909; 275423344; 430227734; 506948616;
    659060556; 883997877; 958139571; 1322822218; 1537002063;
    1747873779; 1955562222; 2024104815; 2227730452; 2361852424;
    2428436474; 2756734187; 3204031479; 3329325298 ].

(** The eight working words. *)
Record words8 : Type := W8 { wa : Z; wb : Z; wc : Z; wd : Z;
                             we : Z; wf : Z; wg : Z; wh : Z }.

Definition initial_hash : words8 :=
  W8 1779033703 3144134277 1013904242 2773480762
     1359893119 2600822924 528734635 1541459225.

(** Big-endian bytes of a 32-bit word and of the 64-bit bit length. *)
Definition be_bytes (n : nat) (x : Z) : list Z :=
  map (fun i => Z.land (Z.shiftr x (8 * Z.of_nat i)) 255) (rev (seq 0 n)).

Fixpoint be_value (bs : list Z) (acc : Z) : Z :=
  match bs with
  | [] => acc
  | b :: bs' => be_value bs' (acc * 256 + b)
  end.

(** Padding: a [0x80] byte, zeros up to 56 mod 64, the bit length. *)
Definition pad (msg : list Z) : list Z :=
  let len := length msg in
  let zeros := ((64 - (len + 9) mod 64) mod 64)%nat in
  msg ++ [128] ++ repeat 0 zeros ++ be_bytes 8 (8 * Z.of_nat len).

Fixpoint chunks (n : nat) (bs : list Z) : list (list Z) :=
  match n with
  | O => []
  | S n' => take 64 bs :: chunks n' (drop 64 bs)
  end.

Fixpoint block_words (n : nat) (bs : list Z) : list Z :=
  match n with
  | O => []
  | S n' => be_value (take 4 bs) 0 :: block_words n' (drop 4 bs)
  end.

(** Message schedule: 16 words of the block, then 48 derived words. *)
Fixpoint extend (n : nat) (w : list Z) : list Z :=
  match n with
  | O => w
  | S n' =>
      let t := length w in
      let at_ (k : nat) := nth (t - k) w 0 in
      extend n' (w ++ [add32 (add32 (ssig1 (at_ 2%nat)) (at_ 7%nat))
                             (add32 (ssig0 (at_ 15%nat)) (at_ 16%nat))])
  end.

Definition schedule (block : list Z) : list Z := extend 48 (block_words 16 block).

Definition round (s : words8) (kw : Z * Z) : words8 :=
  let '(k, w) := kw in
  let t1 := add32 (add32 (add32 (wh s) (bsig1 (we s))) (Ch (we s) (wf s) (wg s)))
                  (add32 k w) in
  let t2 := add32 (bsig0 (wa s)) (Maj (wa s) (wb s) (wc s)) in
  W8 (add32 t1 t2) (wa s) (wb s) (wc s) (add32 (wd s) t1) (we s) (wf s) (wg s).

Definition compress (h : words8) (block : list Z) : words8 :=
  let s := fold_left round (combine round_constants (schedule block)) h in
  W8 (add32 (wa h) (wa s)) (add32 (wb h) (wb s)) (add32 (wc h) (wc s))
     (add32 (wd h) (wd s)) (add32 (we h) (we s)) (add32 (wf h) (wf s))
     (add32 (wg h) (wg s)) (add32 (wh h) (wh s)).

Definition words8_bytes (h : words8) : list Z :=
  be_bytes 4 (wa h) ++ be_bytes 4 (wb h) ++ be_bytes 4 (wc h) ++ be_bytes 4 (wd h) ++
  be_bytes 4 (we h) ++ be_bytes 4 (wf h) ++ be_bytes 4 (wg h) ++ be_bytes 4 (wh h).

(** [createHash("sha256").update(msg).digest()] *)
Definition digest (msg : list Z) : list Z :=
  let padded := pad msg in
  words8_bytes (fold_left compress (chunks (length padded / 64) padded) initial_hash).

End Sha256.

(** ** Node's [Buffer] *)

Module Buffer.

(** [Buffer.alloc(n)] *)
Definition alloc (n : nat) : list Z := repeat 0 n.

(** [buf.writeUInt32BE(value)] at offset 0.  Node checks that [value] is
    within [0, 2^32 - 1] and throws a [RangeError] otherwise (its message is
    abridged here); the bytes are then stored from the least significant
    one, each store keeping the low eight bits. *)
Definition writeUInt32BE (buf : list Z) (value : Z) : Exn + list Z :=
  if (0 <=? value) && (value <=? 4294967295) then
    let buf := <[3%nat := Z.land value 255]> buf in
    let value := Z.shiftr value 8 in
    let buf := <[2%nat := Z.land value 255]> buf in
    let value := Z.shiftr value 8 in
    let buf := <[1%nat := Z.land value 255]> buf in
    let value := Z.shiftr value 8 in
    let buf := <[0%nat := Z.land value 255]> buf in
    inr buf
  else inl (RangeError "The value of value is out of range").

(** [Buffer.concat(bufs)] *)
Definition concat (bufs : list (list Z)) : list Z := List.concat bufs.

Definition hex_digit (d : Z) : ascii :=
  nth (Z.to_nat d) (list_ascii_of_string "0123456789abcdef") "0"%char.

(** [buf.toString("hex")] *)
Fixpoint toString_hex (buf : list Z) : string :=
  match buf with
  | [] => EmptyString
  | b :: buf' => String (hex_digit (Z.shiftr b 4))
                   (String (hex_digit (Z.land b 15)) (toString_hex buf'))
  end.

End Buffer.

(** ** JavaScript values and plain objects *)

Module JS.

(** The values the loader handles.  Of a number the loader observes two
    things only, its truthiness and its string conversion: [VNum] carries
    both ([nonzero] is false for zero and for NaN), so that every number,
    integral or not, is represented with the text a template literal gives
    it.  [VObject] likewise stands for any object and carries its string
    conversion. *)
Inductive value : Type :=
  | VUndefined
  | VNull
  | VStr (s : string)
  | VNum (nonzero : bool) (str : string)
  | VObject (str : string).

(** Truthiness, as [if (v)], [!v] and [v || d] see it. *)
Definition truthy (v : value) : bool :=
  match v with
  | VUndefined | VNull => false
  | VStr s => negb (String.eqb s EmptyString)
  | VNum nonzero _ => nonzero
  | VObject _ => true
  end.

(** [`${v}`] *)
Definition to_string (v : value) : string :=
  match v with
  | VUndefined => "undefined"
  | VNull => "null"
  | VStr s => s
  | VNum _ str => str
  | VObject str => str
  end.

(** The members every plain object inherits from [Object.prototype], with
    the string conversion of each. *)
Definition native (name : string) : string :=
  "function " +:+ name +:+ "() { [native code] }".

Definition object_prototype : list (string * string) :=
  [ ("constructor", native "Object");
    ("__proto__", "[object Object]");
    ("hasOwnProperty", native "hasOwnProperty");
    ("isPrototypeOf", native "isPrototypeOf");
    ("propertyIsEnumerable", native "propertyIsEnumerable");
    ("toLocaleString", native "toLocaleString");
    ("toString", native "toString");
    ("valueOf", native "valueOf");
    ("__defineGetter__", native "__defineGetter__");
    ("__defineSetter__", native "__defineSetter__");
    ("__lookupGetter__", native "__lookupGetter__");
    ("__lookupSetter__", native "__lookupSetter__") ].

Fixpoint assoc {V} (k : string) (l : list (string * V)) : option V :=
  match l with
  | [] => None
  | (k', v) :: l' => if String.eqb k k' then Some v else assoc k l'
  end.

(** [v || d] *)
Definition or_else (v d : value) : value := if truthy v then v else d.

(** The outcome of [o[k]] on an object whose own properties are [o]. *)
Inductive prop_read (V : Type) : Type :=
  | Own (v : V)
  | Inherited (str : string)
  | Missing.
Arguments Own {V} v.
Arguments Inherited {V} str.
Arguments Missing {V}.

Definition read_prop {V} (o : gmap string V) (k : string) : prop_read V :=
  match o !! k with
  | Some v => Own v
  | None =>
      match assoc k object_prototype with
      | Some str => Inherited str
      | None => Missing
      end
  end.

(** [o[k]] on an object holding values. *)
Definition get_prop (o : gmap string value) (k : string) : value :=
  match read_prop o k with
  | Own v => v
  | Inherited str => VObject str
  | Missing => VUndefined
  end.

(** [o[k] = v] on an object created by [{}].  The key [__proto__] reaches
    the accessor of [Object.prototype], which creates no own property. *)
Definition set_prop {V} (k : string) (v : V) (o : gmap string V) : gmap string V :=
  if String.eqb k "__proto__" then o else <[k := v]> o.

End JS.

(** ** [class ParseOracleDocMetadata] *)

Module ParseOracleDocMetadata.

(** The two private fields.  [match] is a keyword of Rocq, hence
    [match_]. *)
Record t : Type := Parser { metadata : gmap string string; match_ : bool }.

(** [constructor()] *)
Definition new : t := {| metadata := ∅; match_ := false |}.

(** [{ name: string; value: string | null }] *)
Definition Attribute : Type := string * option string.

(** One turn of [attrs.forEach(...)] over the two locals [entry]
    ([string | undefined]) and [content] ([string | null]). *)
Definition scan_attr (acc : option string * option string) (a : Attribute)
  : option string * option string :=
  let '(entry, content) := acc in
  let '(name, value) := a in
  let entry := if String.eqb name "name" then Some (default EmptyString value) else entry in
  let content := if String.eqb name "content" then value else content in
  (entry, content).

Definition handleStartTag (p : t) (tag : string) (attrs : list Attribute) : t :=
  if String.eqb tag "meta" then
    let '(entry, content) := fold_left scan_attr attrs (None, None) in
    match entry with
    | Some e =>
        if negb (String.eqb e EmptyString) then
          {| metadata := JS.set_prop e (default "N/A" content) (metadata p);
             match_ := match_ p |}
        else p
    | None => p
    end
  else if String.eqb tag "title" then
    {| metadata := metadata p; match_ := true |}
  else p.

Definition handleData (p : t) (data : string) : t :=
  if match_ p then
    {| metadata := JS.set_prop "title" data (metadata p); match_ := false |}
  else p.

Definition getMetadata (p : t) : gmap string string := metadata p.

(** The callbacks of htmlparser2's [Parser] that [parse] installs.
    [attribs] is [Object.entries(attrs)]. *)
Inductive SaxEvent : Type :=
  | onopentag (name : string) (attribs : list (string * string))
  | ontext (text : string).

Definition dispatch (p : t) (ev : SaxEvent) : t :=
  match ev with
  | onopentag name attribs =>
      handleStartTag p name (map (fun '(n, v) => (n, Some v)) attribs)
  | ontext text => handleData p text
  end.

(** [parse(htmlString)].  [tokenize] is htmlparser2 (with
    [decodeEntities: true]): the events that [write] and [end] deliver for
    the text, in document order. *)
Definition parse (tokenize : string -> list SaxEvent) (p : t) (htmlString : string) : t :=
  fold_left dispatch (tokenize htmlString) p.

End ParseOracleDocMetadata.

(** ** [Document] *)

(** Modelled from the spec: the [Document] class of [@langchain/core] is not
    part of these sources; section 3 of the specification gives it as the
    pair of a text and a metadata mapping, which is what
    [new Document(text, metadata)] builds here. *)
Record Document : Type :=
  mkDocument { pageContent : JS.value; doc_metadata : gmap string JS.value }.

(** ** [class OracleDocReader] *)

Module OracleDocReader.

(** What one call of [generateObjectId] reads from its environment:
    [Date.now()], the successive [Math.floor(Math.random() * 62)] of the
    seed synthesis, and [Math.floor(Math.random() * Math.pow(2, 32))]. *)
Record Entropy : Type :=
  { now_ms : Z; seed_draw : nat -> nat; counter_draw : Z }.

Definition alphabet : string :=
  "abcdefghijklmnopqrstuvwxyzABCDEFGHIJKLMNOPQRSTUVWXYZ0123456789".

(** [Array.from({ length: 16 }, () => alphabet.charAt(...))], joined with
    the empty separator. *)
Definition random_seed (e : Entropy) : string :=
  String.concat EmptyString (map (fun i => charAt alphabet (seed_draw e i)) (seq 0 16)).

(** The seed after [if (!inputString) { inputString = ... }]. *)
Definition effective_seed (e : Entropy) (inputString : option string) : string :=
  match inputString with
  | None => random_seed e
  | Some s => if String.eqb s EmptyString then random_seed e else s
  end.

Definition generateObjectId (e : Entropy) (inputString : option string) : Exn + string :=
  let outLength := 32%nat in
  let hashLen := 8%nat in
  let inputString := effective_seed e inputString in
  (* Timestamp *)
  let timestamp := now_ms e / 1000 in
  try! timestampBin := Buffer.writeUInt32BE (Buffer.alloc 4) timestamp in
  (* Hash value *)
  let hashValBin := Sha256.digest (utf8 inputString) in
  let truncatedHashVal := take hashLen hashValBin in
  (* Counter *)
  try! counterBin := Buffer.writeUInt32BE (Buffer.alloc 4) (counter_draw e) in
  (* Binary object ID *)
  let objectId := Buffer.concat [timestampBin; truncatedHashVal; counterBin] in
  let objectIdHex := padStart (Buffer.toString_hex objectId) outLength "0"%char in
  inr (slice0 objectIdHex outLength).

(** A large object handed back by the driver: the chunks its stream
    delivers, then either the end of the stream or an error. *)
Record Lob : Type := { lob_chunks : list string; lob_error : option Exn }.

(** [readClob(lob)]: the chunks concatenated once the stream ends; a
    rejection when the stream reports an error. *)
Definition readClob (lob : Lob) : Exn + string :=
  match lob_error lob with
  | Some err => inl err
  | None => inr (fold_left String.append (lob_chunks lob) EmptyString)
  end.

(** [interface OutBinds] *)
Record OutBinds : Type := { mdata : option Lob; text : option Lob }.

(** [JSON.stringify] of an object whose fields are strings that need no
    escaping. *)
Definition JSON_stringify (o : list (string * string)) : string :=
  "{" +:+ String.concat ","
            (map (fun '(k, v) => dquote +:+ k +:+ dquote +:+ ":" +:+ dquote +:+ v +:+ dquote) o)
      +:+ "}".

(** Everything [readFile] obtains from outside: the file system, the two
    statements it executes on the connection, the HTML tokenizer, the
    entropy of the id generator, and the outcome of invoking the imported
    [Document] binding as a function, without [new] (lines 211 and 213). *)
Record FileWorld : Type :=
  { fs_readFile : string -> Exn + option (list Z);
    extract_answer : list Z -> string -> Exn + option OutBinds;
    file_user_answer : Exn + option (list (gmap string JS.value));
    file_tokenize : string -> list ParseOracleDocMetadata.SaxEvent;
    file_entropy : Entropy;
    Document_call : string -> gmap string string -> Exn + Document }.

(** The body of the [try] block. *)
Definition readFile_body (w : FileWorld) (filePath : string) (params : list (string * string))
  : Exn + Document :=
  let metadata : gmap string string := ∅ in
  try! data := fs_readFile w filePath in
  match data with
  | None => inr (mkDocument (JS.VStr EmptyString) (JS.VStr <$> metadata))
  | Some data =>
      try! result := extract_answer w data (JSON_stringify params) in
      match result with
      | None => inl (TypeError "Cannot read properties of undefined (reading 'mdata')")
      | Some outBinds =>
          let mdataLob := mdata outBinds in
          let textLob := text outBinds in
          try! docData := match mdataLob with Some l => readClob l | None => inr EmptyString end in
          try! textData := match textLob with Some l => readClob l | None => inr EmptyString end in
          let metadata :=
            if startsWith docData "<!DOCTYPE html" || startsWith docData "<HTML>" then
              ParseOracleDocMetadata.getMetadata
                (ParseOracleDocMetadata.parse (file_tokenize w) ParseOracleDocMetadata.new docData)
            else metadata in
          try! userResult := file_user_answer w in
          let username :=
            match userResult with
            | Some (row :: _) => JS.get_prop row "USERNAME"
            | _ => JS.VUndefined
            end in
          try! docId := generateObjectId (file_entropy w)
                          (Some (JS.to_string username +:+ "$" +:+ filePath)) in
          let metadata := JS.set_prop "_oid" docId metadata in
          let metadata := JS.set_prop "_file" filePath metadata in
          if String.eqb textData EmptyString then Document_call w EmptyString metadata
          else Document_call w textData metadata
      end
  end.

(** [readFile(conn, filePath, params)]: the lines written by
    [console.error] and the value the promise resolves to ([None] is
    [null]). *)
Definition readFile (w : FileWorld) (filePath : string) (params : list (string * string))
  : list string * option Document :=
  match readFile_body w filePath params with
  | inr doc => ([], Some doc)
  | inl ex =>
      ([ "An exception occurred: " +:+ exn_to_string ex;
         "Skip processing " +:+ filePath ], None)
  end.

End OracleDocReader.

(** ** [class OracleDocLoader] *)

Module OracleDocLoader.

Inductive OracleLoadFromType : Type := FILE | DIR | TABLE.

(** The fields set by the constructor, the connection apart. *)
Record Loader : Type :=
  { loadFrom : string;
    loadFromType : OracleLoadFromType;
    owner : option string;
    colname : option string;
    mdata_cols : option (list string) }.

(** A statement passed to [conn.execute]: its text and its bind values. *)
Record Stmt : Type := { sql : string; binds : list (string * string) }.

(** The world of one [load()]: what the connection answers to the catalog
    lookup (rows as pairs [COLUMN_NAME], [DATA_TYPE]), to the main query
    (rows as objects) and to the session query (rows as arrays); [None] is
    an absent [rows] field.  Then the HTML tokenizer and the entropy read
    by the i-th call of the id generator. *)
Record World : Type :=
  { columns_answer : Stmt -> Exn + option (list (string * string));
    rows_answer : Stmt -> Exn + option (list (gmap string JS.value));
    user_answer : Stmt -> Exn + option (list (list JS.value));
    tokenize : string -> list ParseOracleDocMetadata.SaxEvent;
    entropy : nat -> OracleDocReader.Entropy }.

(** Computations that execute statements: the trace of the statements
    executed so far is threaded through, an exception ends the run. *)
Definition M (A : Type) : Type := list Stmt -> list Stmt * (Exn + A).

Definition ret {A} (a : A) : M A := fun tr => (tr, inr a).
Definition throw {A} (e : Exn) : M A := fun tr => (tr, inl e).
Definition bind {A B} (m : M A) (k : A -> M B) : M B :=
  fun tr => match m tr with
            | (tr', inl e) => (tr', inl e)
            | (tr', inr a) => k a tr'
            end.
Definition lift {A} (r : Exn + A) : M A := fun tr => (tr, r).

(** [await this.conn.execute(sql, binds, ...)] *)
Definition execute {A} (answer : Stmt -> Exn + A) (q : Stmt) : M A :=
  fun tr => ((tr ++ [q])%list, answer q).

Notation "'do' x <- m ; k" := (bind m (fun x => k))
  (at level 10, x name, m at level 100, k at level 200).

Definition is_ident_start (c : ascii) : bool := is_upper c || is_lower c || is_underscore c.
Definition is_ident_part (c : ascii) : bool := is_ident_start c || is_digit c.

(** [/^[A-Za-z_][A-Za-z0-9_]*$/.test(identifier)] *)
Definition isValidIdentifier (identifier : string) : bool :=
  match identifier with
  | EmptyString => false
  | String c rest => is_ident_start c && forallb is_ident_part (list_ascii_of_string rest)
  end.

Definition user_stmt : Stmt := {| sql := "SELECT USER FROM dual"; binds := [] |}.

(** [result.rows?.[0]?.[0]] *)
Definition first_cell (rows : option (list (list JS.value))) : JS.value :=
  match rows with
  | Some (row :: _) =>
      match row with
      | v :: _ => v
      | [] => JS.VUndefined
      end
  | _ => JS.VUndefined
  end.

Definition getUsername (w : World) : M JS.value :=
  do result <- execute (user_answer w) user_stmt;
  ret (JS.or_else (first_cell result) (JS.VStr "unknown_user")).

Definition colSql : string :=
  nl +:+ "            SELECT COLUMN_NAME, DATA_TYPE" +:+
  nl +:+ "            FROM ALL_TAB_COLUMNS" +:+
  nl +:+ "            WHERE OWNER = :ownername AND TABLE_NAME = :tablename" +:+
  nl +:+ "        ".

Definition mainSql (owner loadFrom colname mdataColsSql : string) : string :=
  nl +:+ "        SELECT dbms_vector_chain.utl_to_text(t." +:+ colname +:+ ", json(:params)) AS MDATA," +:+
  nl +:+ "            dbms_vector_chain.utl_to_text(t." +:+ colname +:+ ") AS TEXT" +:+
  nl +:+ "            " +:+ mdataColsSql +:+
  nl +:+ "        FROM " +:+ owner +:+ "." +:+ loadFrom +:+ " t" +:+
  nl +:+ "    ".

Definition supported_types : list string :=
  [ "NUMBER"; "BINARY_DOUBLE"; "BINARY_FLOAT"; "LONG"; "DATE"; "TIMESTAMP"; "VARCHAR2" ].

(** [[...].includes(dataType)] *)
Definition includes (l : list string) (s : string) : bool := existsb (String.eqb s) l.

(** The first loop over [colRows]: [colTypes[colName] = dataType]. *)
Definition build_colTypes (colRows : list (string * string)) : gmap string string :=
  fold_left (fun colTypes '(colName, dataType) => JS.set_prop colName dataType colTypes)
            colRows ∅.

(** The body of the loop that checks one requested column. *)
Definition check_col (loadFrom : string) (colTypes : gmap string string) (col : string)
  : Exn + unit :=
  if negb (isValidIdentifier col) then
    inl (Error ("Invalid column name in mdata_cols: " +:+ col))
  else
    match JS.read_prop colTypes col with
    | JS.Missing =>
        inl (Error ("Column " +:+ col +:+ " not found in table " +:+ loadFrom))
    | JS.Own dataType =>
        if String.eqb dataType EmptyString then
          inl (Error ("Column " +:+ col +:+ " not found in table " +:+ loadFrom))
        else if negb (includes supported_types dataType) then
          inl (Error ("The datatype for the column " +:+ col +:+ " is not supported"))
        else inr tt
    | JS.Inherited _ =>
        inl (Error ("The datatype for the column " +:+ col +:+ " is not supported"))
    end.

Fixpoint check_cols (loadFrom : string) (colTypes : gmap string string) (cols : list string)
  : Exn + unit :=
  match cols with
  | [] => inr tt
  | col :: cols' =>
      try! _u := check_col loadFrom colTypes col in
      check_cols loadFrom colTypes cols'
  end.

Definition catalog_stmt (owner loadFrom : string) : Stmt :=
  {| sql := colSql;
     binds := [ ("ownername", toUpperCase owner); ("tablename", toUpperCase loadFrom) ] |}.

(** The last loop over [mdata_cols]: [mdataColsSql += `, t.${col}`]. *)
Definition append_cols (cols : list string) (mdataColsSql : string) : string :=
  fold_left (fun acc col => acc +:+ ", t." +:+ col) cols mdataColsSql.

(** The part of [loadFromTable] inside [if (this.mdata_cols) { ... }];
    it returns the extended [mdataColsSql]. *)
Definition catalog_phase (w : World) (owner loadFrom : string) (cols : list string)
           (mdataColsSql : string) : M string :=
  if (3 <? length cols)%nat then throw (Error "Exceeds max columns for metadata")
  else
    do colRows <- execute (columns_answer w) (catalog_stmt owner loadFrom);
    match colRows with
    | None => throw (Error "Failed to retrieve column information")
    | Some colRows =>
        let colTypes := build_colTypes colRows in
        do _u <- lift (check_cols loadFrom colTypes cols);
        ret (append_cols cols mdataColsSql)
    end.

(** [for (const colName of this.mdata_cols) metadata[colName] = row[colName]] *)
Definition copy_columns (row : gmap string JS.value) (cols : list string)
           (metadata : gmap string JS.value) : gmap string JS.value :=
  fold_left (fun md colName => JS.set_prop colName (JS.get_prop row colName) md)
            cols metadata.

(** The seed of the object id of a row:
    [`${username}$${this.owner}$${this.loadFrom}$${this.colname}$${row["ROWID"]}`] *)
Definition row_seed (username : JS.value) (owner loadFrom colname : string)
           (rowid : JS.value) : string :=
  JS.to_string username +:+ "$" +:+ owner +:+ "$" +:+ loadFrom +:+ "$" +:+
  colname +:+ "$" +:+ JS.to_string rowid.

(** Lines 384-393: [let metadata = {}], then the parse of [row["MDATA"]]
    when it is truthy and carries the HTML signature.  [startsWith] is
    called on whatever truthy value the row holds. *)
Definition initial_metadata (w : World) (row : gmap string JS.value)
  : Exn + gmap string JS.value :=
  let metadata : gmap string JS.value := ∅ in
  let m := JS.get_prop row "MDATA" in
  if JS.truthy m then
    match m with
    | JS.VStr data =>
        if startsWith data "<!DOCTYPE html" || startsWith data "<HTML>" then
          inr (JS.VStr <$> ParseOracleDocMetadata.getMetadata
                 (ParseOracleDocMetadata.parse (tokenize w) ParseOracleDocMetadata.new data))
        else inr metadata
    | _ => inl (TypeError "data.startsWith is not a function")
    end
  else inr metadata.

(** The body of [for (const row of rows)], up to [results.push]. *)
Definition row_document (w : World) (ld : Loader) (owner colname : string)
           (username : JS.value) (e : OracleDocReader.Entropy)
           (row : gmap string JS.value) : Exn + Document :=
  try! metadata := initial_metadata w row in
  try! docId :=
    OracleDocReader.generateObjectId e
      (Some (row_seed username owner (loadFrom ld) colname (JS.get_prop row "ROWID"))) in
  let metadata := JS.set_prop "_oid" (JS.VStr docId) metadata in
  let metadata := JS.set_prop "_rowid" (JS.get_prop row "ROWID") metadata in
  let metadata :=
    match mdata_cols ld with
    | Some cols => copy_columns row cols metadata
    | None => metadata
    end in
  let text := JS.get_prop row "TEXT" in
  match text with
  | JS.VNull | JS.VUndefined => inr (mkDocument (JS.VStr EmptyString) metadata)
  | _ => inr (mkDocument text metadata)
  end.

(** The loop over [rows]; [i] counts the rows already handled. *)
Fixpoint rows_documents (w : World) (ld : Loader) (owner colname : string)
         (username : JS.value) (i : nat) (rows : list (gmap string JS.value))
  : Exn + list Document :=
  match rows with
  | [] => inr []
  | row :: rows' =>
      try! doc := row_document w ld owner colname username (entropy w i) row in
      try! docs := rows_documents w ld owner colname username (S i) rows' in
      inr (doc :: docs)
  end.

Definition falsy_string (s : option string) : bool :=
  match s with
  | None => true
  | Some s => String.eqb s EmptyString
  end.

(** Lines 276-291: the configuration checks that precede every statement;
    they yield the owner and the content column. *)
Definition validate (ld : Loader) : Exn + (string * string) :=
  if falsy_string (owner ld) || falsy_string (colname ld) then
    inl (Error "Owner and column name must be specified for loading from a table")
  else
    let owner := default EmptyString (owner ld) in
    let colname := default EmptyString (colname ld) in
    (* Validate identifiers to prevent SQL injection *)
    if negb (isValidIdentifier owner) then inl (Error "Invalid owner name")
    else if negb (isValidIdentifier (loadFrom ld)) then inl (Error "Invalid table name")
    else if negb (isValidIdentifier colname) then inl (Error "Invalid column name")
    else inr (owner, colname).

Definition main_stmt (owner loadFrom colname mdataColsSql : string)
           (m_params : list (string * string)) : Stmt :=
  {| sql := mainSql owner loadFrom colname mdataColsSql;
     binds := [ ("params", OracleDocReader.JSON_stringify m_params) ] |}.

(** Lines 293-378: the catalog lookup when [mdata_cols] is set, then the
    main query; the result is [result.rows]. *)
Definition query_rows (w : World) (ld : Loader) (owner colname : string)
           (m_params : list (string * string)) : M (option (list (gmap string JS.value))) :=
  let mdataColsSql := ", t.ROWID AS ROWID" in
  do mdataColsSql <-
    match mdata_cols ld with
    | Some cols => catalog_phase w owner (loadFrom ld) cols mdataColsSql
    | None => ret mdataColsSql
    end;
  execute (rows_answer w) (main_stmt owner (loadFrom ld) colname mdataColsSql m_params).

Definition loadFromTable (w : World) (ld : Loader) (m_params : list (string * string))
  : M (list Document) :=
  do oc <- lift (validate ld);
  let '(owner, colname) := oc in
  do rows <- query_rows w ld owner colname m_params;
  do username <- getUsername w;
  match rows with
  | Some rows => lift (rows_documents w ld owner colname username 0 rows)
  | None => ret []
  end.

(** [load()]; the trace starts empty. *)
Definition load (w : World) (ld : Loader) : list Stmt * (Exn + list Document) :=
  let m_params := [ ("plaintext", "false") ] in
  match loadFromType ld with
  | FILE => ([], inr [])
  | DIR => ([], inr [])
  | TABLE => loadFromTable w ld m_params []
  end.

End OracleDocLoader.

(** ** Notions used to state the properties *)

Import ParseOracleDocMetadata.

(** The value carried by the last attribute called [k]: [None] when the
    tag has no such attribute, [Some None] when its value is [null]. *)
Fixpoint attr_value (k : string) (attrs : list Attribute) : option (option string) :=
  match attrs with
  | [] => None
  | (n, v) :: rest =>
      match attr_value k rest with
      | Some found => Some found
      | None => if String.eqb n k then Some v else None
      end
  end.

Definition open_tags (tags : list (string * list (string * string))) : list SaxEvent :=
  map (fun '(n, a) => onopentag n a) tags.

Definition is_title_open (ev : SaxEvent) : bool :=
  match ev with
  | onopentag n _ => String.eqb n "title"
  | ontext _ => false
  end.

Definition is_open (ev : SaxEvent) : bool :=
  match ev with
  | onopentag _ _ => true
  | ontext _ => false
  end.

Definition is_lower_hex (c : ascii) : bool :=
  is_digit c || (let n := nat_of_ascii c in (97 <=? n)%nat && (n <=? 102)%nat).

Definition is_alnum (c : ascii) : bool := is_lower c || is_upper c || is_digit c.

(** The bytes of an object id, as the specification lays them out: the
    seconds since the epoch and the counter on four big-endian bytes each,
    around the first eight bytes of the SHA-256 of the seed. *)
Definition object_id_bytes (seconds : Z) (seed : string) (counter : Z) : list Z :=
  (Sha256.be_bytes 4 seconds ++ take 8 (Sha256.digest (utf8 seed))
   ++ Sha256.be_bytes 4 counter)%list.

Definition uint32 (v : Z) : Prop := 0 <= v <= 4294967295.

Import OracleDocReader OracleDocLoader.

(** The parameters [load()] passes to the table path. *)
Definition m_params : list (string * string) := [ ("plaintext", "false") ].

(** The value [getUsername] resolves to, given the rows of the session
    query. *)
Definition username_of (rows : option (list (list JS.value))) : JS.value :=
  JS.or_else (first_cell rows) (JS.VStr "unknown_user").

(** The statements a table load can execute, in order: the catalog lookup
    when [mdata_cols] is set, the main query, the session query. *)
Definition planned_stmts (ld : Loader) : list Stmt :=
  let o := default EmptyString (owner ld) in
  let c := default EmptyString (colname ld) in
  match mdata_cols ld with
  | Some cols =>
      [ catalog_stmt o (loadFrom ld);
        main_stmt o (loadFrom ld) c (append_cols cols ", t.ROWID AS ROWID") m_params;
        user_stmt ]
  | None =>
      [ main_stmt o (loadFrom ld) c ", t.ROWID AS ROWID" m_params; user_stmt ]
  end.

(** The signature test applied to the HTML-flavored extraction. *)
Definition html_signature (data : string) : bool :=
  startsWith data "<!DOCTYPE html" || startsWith data "<HTML>".

(** What the metadata of a row starts from: the parsed tags when [MDATA]
    is a string with the signature, nothing otherwise. *)
Definition parsed_metadata (tok : string -> list SaxEvent) (m : JS.value)
  : gmap string JS.value :=
  match m with
  | JS.VStr data =>
      if html_signature data then JS.VStr <$> getMetadata (parse tok new data) else ∅
  | _ => ∅
  end.

Definition requested_cols (ld : Loader) : list string := default [] (mdata_cols ld).

(** A row on which the loop body cannot throw a [TypeError]: [MDATA] is a
    string or falsy. *)
Definition mdata_usable (row : gmap string JS.value) : bool :=
  match JS.get_prop row "MDATA" with
  | JS.VStr _ => true
  | m => negb (JS.truthy m)
  end.

Definition entropy_in_range (e : Entropy) : bool :=
  (0 <=? now_ms e / 1000) && (now_ms e / 1000 <=? 4294967295)
  && (0 <=? counter_draw e) && (counter_draw e <=? 4294967295).

(** *** Sample inputs *)

(** 2026-11-01T18:26:40.123Z, counter [0x12345678]. *)
Definition sample_entropy : Entropy :=
  {| now_ms := 1793557600123; seed_draw := fun i => (i * 7 mod 62)%nat;
     counter_draw := 305419896 |}.

Definition sample_tokenize (html : string) : list SaxEvent :=
  [ onopentag "html" []; onopentag "title" []; ontext "Document 1";
    onopentag "meta" [("name", "_oid"); ("content", "from-html")] ].

Definition sample_row (mdata : JS.value) (rowid : string) : gmap string JS.value :=
  {[ "MDATA" := mdata; "TEXT" := JS.VStr "body"; "ROWID" := JS.VStr rowid;
     "ID" := JS.VNum true "7"; "_oid" := JS.VStr "forged" ]}.

(** A connection over a table with columns [ID] and [_oid] and two rows, the
    first with an HTML rendering and the second without; the session query
    returns no rows. *)
Definition sample_world : World :=
  {| columns_answer := fun _ => inr (Some [("ID", "NUMBER"); ("_oid", "VARCHAR2")]);
     rows_answer := fun _ =>
       inr (Some [ sample_row (JS.VStr "<HTML><title>Document 1</title>") "AAA1";
                   sample_row JS.VNull "AAA2" ]);
     user_answer := fun _ => inr (Some []);
     tokenize := sample_tokenize;
     entropy := fun _ => sample_entropy |}.

Definition sample_loader (table : string) (cols : option (list string)) : Loader :=
  {| loadFrom := table; loadFromType := TABLE; owner := Some "TEST_USER";
     colname := Some "CONTENT_COLUMN"; mdata_cols := cols |}.

(** A world in which the file cannot be read. *)
Definition unreadable_world : FileWorld :=
  {| fs_readFile := fun _ => inl (External "Error: ENOENT: no such file or directory");
     extract_answer := fun _ _ => inr None;
     file_user_answer := inr None;
     file_tokenize := sample_tokenize;
     file_entropy := sample_entropy;
     Document_call := fun _ _ => inl (TypeError "Class constructor Document cannot be invoked without 'new'") |}.

(** A world in which the file is read and the extraction call fails. *)
Definition failing_extraction_world : FileWorld :=
  {| fs_readFile := fun _ => inr (Some [37; 80; 68; 70]);
     extract_answer := fun _ _ => inl (External "Error: ORA-20000: unsupported document");
     file_user_answer := inr None;
     file_tokenize := sample_tokenize;
     file_entropy := sample_entropy;
     Document_call := fun _ _ => inl (TypeError "Class constructor Document cannot be invoked without 'new'") |}.

(** The i-th document of a successful [load()]. *)
Definition loaded_document (w : World) (ld : Loader) (i : nat) : option Document :=
  match snd (load w ld) with
  | inr docs => docs !! i
  | inl _ => None
  end.

(** The session query gave no user: no [rows] field, no row, or a first
    row whose first cell is [null]. *)
Definition no_session_user (ur : option (list (list JS.value))) : Prop :=
  ur = None ∨ ur = Some [] ∨ ∃ cells more, ur = Some ((JS.VNull :: cells) :: more).


(** *** Notions for the further properties *)

(** The main statement of a table load, with the columns it requests. *)
Definition the_main_stmt (ld : Loader) (o c : string) : Stmt :=
  main_stmt o (loadFrom ld) c (append_cols (requested_cols ld) ", t.ROWID AS ROWID") m_params.

(** A requested column that the catalog lists with a supported type. *)
Definition column_accepted (colTypes : gmap string string) (col : string) : Prop :=
  isValidIdentifier col = true
  ∧ ∃ ty, colTypes !! col = Some ty ∧ includes supported_types ty = true.

(** The catalog lookup of a load goes through: at most three columns are
    requested, the lookup returns rows, and every requested column is
    accepted. *)
Definition catalog_accepts (w : World) (ld : Loader) (o : string) : Prop :=
  ∀ cols, mdata_cols ld = Some cols →
    (length cols <= 3)%nat
    ∧ ∃ colRows,
        columns_answer w (catalog_stmt o (loadFrom ld)) = inr (Some colRows)
        ∧ Forall (column_accepted (build_colTypes colRows)) cols.

(** The statements executed up to the main query, when the catalog lookup
    goes through. *)
Definition stmts_to_main (ld : Loader) (o c : string) : list Stmt :=
  match mdata_cols ld with
  | Some _ => [ catalog_stmt o (loadFrom ld); the_main_stmt ld o c ]
  | None => [ the_main_stmt ld o c ]
  end.

(** The page content of a row: its [TEXT], or the empty string when that is
    [null] or absent. *)
Definition text_or_empty (v : JS.value) : JS.value :=
  match v with
  | JS.VNull | JS.VUndefined => JS.VStr EmptyString
  | _ => v
  end.

(** The same world with another answer to the session query. *)
Definition with_user_answer (w : World)
           (ua : Stmt -> Exn + option (list (list JS.value))) : World :=
  {| columns_answer := columns_answer w; rows_answer := rows_answer w;
     user_answer := ua; tokenize := tokenize w; entropy := entropy w |}.

(** The same world with another answer to the main query. *)
Definition with_rows_answer (w : World)
           (ra : Stmt -> Exn + option (list (gmap string JS.value))) : World :=
  {| columns_answer := columns_answer w; rows_answer := ra;
     user_answer := user_answer w; tokenize := tokenize w; entropy := entropy w |}.

(** The values of the [name] attributes of the [meta] tags of a run. *)
Definition meta_names (evs : list SaxEvent) : list string :=
  flat_map (fun ev =>
              match ev with
              | onopentag n attribs =>
                  if String.eqb n "meta" then
                    map snd (List.filter (fun '(k, _) => String.eqb k "name") attribs)
                  else []
              | ontext _ => []
              end) evs.

(** The character codes of the identifier pattern: digits, upper-case
    letters, the underscore, lower-case letters. *)
Definition allowed_code (n : nat) : Prop :=
  (48 <= n <= 57)%nat ∨ (65 <= n <= 90)%nat ∨ n = 95%nat ∨ (97 <= n <= 122)%nat.

(** The upper-case form of one character, as [toUpperCase] maps it. *)
Definition upper_of (c : ascii) : ascii :=
  if is_lower c then ascii_of_nat (nat_of_ascii c - 32) else c.

Definition is_byte (b : Z) : Prop := 0 <= b < 256.

(** Lexicographic comparison of byte sequences. *)
Fixpoint bytes_compare (l1 l2 : list Z) : comparison :=
  match l1, l2 with
  | [], [] => Eq
  | [], _ :: _ => Lt
  | _ :: _, [] => Gt
  | a :: l1', b :: l2' =>
      match a ?= b with
      | Eq => bytes_compare l1' l2'
      | c => c
      end
  end.

(** [lob ? await readClob(lob) : ""] *)
Definition read_optional_lob (lob : option Lob) : Exn + string :=
  match lob with
  | Some l => readClob l
  | None => inr EmptyString
  end.

(** [userResult.rows?.[0]?.USERNAME] *)
Definition file_username (rows : option (list (gmap string JS.value))) : JS.value :=
  match rows with
  | Some (row :: _) => JS.get_prop row "USERNAME"
  | _ => JS.VUndefined
  end.

(** A file world in which reading and extraction succeed: the extraction
    returns an HTML rendering and a text, the session row is in array
    format and so has no [USERNAME] property. *)
Definition readable_world : FileWorld :=
  {| fs_readFile := fun _ => inr (Some [37; 80; 68; 70]);
     extract_answer := fun _ _ =>
       inr (Some {| mdata := Some {| lob_chunks := ["<HTML><title>Docu"; "ment 1</title>"];
                                     lob_error := None |};
                    text := Some {| lob_chunks := ["bo"; "dy"]; lob_error := None |} |});
     file_user_answer := inr (Some [ {[ "0" := JS.VStr "SCOTT" ]} ]);
     file_tokenize := sample_tokenize;
     file_entropy := sample_entropy;
     Document_call := fun t md => inr (mkDocument (JS.VStr t) (JS.VStr <$> md)) |}.

(** A connection whose main query returns a large object, a number and a
    string as [MDATA]. *)
Definition lob_world : World :=
  {| columns_answer := columns_answer sample_world;
     rows_answer := fun _ =>
       inr (Some [ sample_row (JS.VStr "plain") "AAA1";
                   sample_row (JS.VObject "[object Object]") "AAA2" ]);
     user_answer := fun _ => inr (Some [[JS.VStr "SCOTT"]]);
     tokenize := sample_tokenize;
     entropy := fun _ => sample_entropy |}.

(** A file world in which the stream of the extracted text breaks after a
    first chunk. *)
Definition broken_stream_world : FileWorld :=
  {| fs_readFile := fun _ => inr (Some [37; 80; 68; 70]);
     extract_answer := fun _ _ =>
       inr (Some {| mdata := None;
                    text := Some {| lob_chunks := ["bo"];
                                    lob_error := Some (External "Error: NJS-500") |} |});
     file_user_answer := inr None;
     file_tokenize := sample_tokenize;
     file_entropy := sample_entropy;
     Document_call := fun t md => inr (mkDocument (JS.VStr t) (JS.VStr <$> md)) |}.

(** * Properties of [ParseOracleDocMetadata] *)

Section Parser.

Lemma scan_attrs_last (attrs : list Attribute) (entry content : option string) :
  fold_left scan_attr attrs (entry, content)
  = (match attr_value "name" attrs with
     | Some v => Some (default EmptyString v)
     | None => entry
     end,
     match attr_value "content" attrs with
     | Some v => v
     | None => content
     end).
Proof.
  revert entry content.
  induction attrs as [|[n v] rest IH]; intros entry content; [reflexivity|].
  cbn [fold_left scan_attr attr_value]. rewrite IH.
  destruct (attr_value "name" rest), (attr_value "content" rest);
    destruct (String.eqb n "name"), (String.eqb n "content"); reflexivity.
Qed.

Lemma set_prop_insert {V} (k : string) (v : V) (o : gmap string V) :
  k ≠ "__proto__" → JS.set_prop k v o = <[k := v]> o.
Proof.
  intros Hk. unfold JS.set_prop.
  destruct (String.eqb_spec k "__proto__"); [contradiction|reflexivity].
Qed.

Lemma handleData_disarmed (p : t) (data : string) :
  match_ p = false → handleData p data = p.
Proof. intros H. unfold handleData. rewrite H. reflexivity. Qed.

Lemma handleStartTag_keeps_armed (p : t) (tag : string) (attrs : list Attribute) :
  match_ p = true → match_ (handleStartTag p tag attrs) = true.
Proof.
  intros H. unfold handleStartTag.
  destruct (String.eqb tag "meta").
  - destruct (fold_left scan_attr attrs (None, None)) as [[e|] c]; [|exact H].
    destruct (negb (String.eqb e EmptyString)); exact H.
  - destruct (String.eqb tag "title"); [reflexivity|exact H].
Qed.

Lemma open_tags_keep_armed (tags : list (string * list (string * string))) (p : t) :
  match_ p = true → match_ (fold_left dispatch (open_tags tags) p) = true.
Proof.
  revert p. induction tags as [|[n a] tags IH]; intros p H; [exact H|].
  cbn. apply IH. apply handleStartTag_keeps_armed, H.
Qed.

Lemma handleStartTag_other_disarmed (p : t) (tag : string) (attrs : list Attribute) :
  String.eqb tag "title" = false → match_ p = false →
  match_ (handleStartTag p tag attrs) = false.
Proof.
  intros Ht H. unfold handleStartTag. rewrite Ht.
  destruct (String.eqb tag "meta"); [|exact H].
  destruct (fold_left scan_attr attrs (None, None)) as [[e|] c]; [|exact H].
  destruct (negb (String.eqb e EmptyString)); exact H.
Qed.

(** While the flag is down and no [title] tag arrives, text events change
    nothing: the run equals the run of the open-tag events alone. *)
Lemma texts_ignored_while_disarmed (evs : list SaxEvent) (p : t) :
  match_ p = false →
  fold_left dispatch (List.filter (fun ev => negb (is_title_open ev)) evs) p
  = fold_left dispatch
      (List.filter (fun ev => is_open ev && negb (is_title_open ev)) evs) p.
Proof.
  revert p. induction evs as [|ev evs IH]; intros p H; [reflexivity|].
  destruct ev as [n a|d]; cbn [List.filter is_open is_title_open negb andb].
  - destruct (String.eqb n "title") eqn:Hn; cbn [negb fold_left].
    + apply IH, H.
    + apply IH. cbn [dispatch]. apply handleStartTag_other_disarmed; assumption.
  - cbn [fold_left dispatch]. rewrite handleData_disarmed by exact H. apply IH, H.
Qed.

(** C3 (as stated, refuted): a [meta] tag whose [name] attribute is present
    but empty records nothing, although the claim asks for
    [metadata[name] = content]; the same holds for the name [__proto__],
    an assignment to which creates no own property. *)
Lemma meta_tag_name_not_recorded :
  metadata (handleStartTag new "meta"
              [("name", Some EmptyString); ("content", Some "x")]) !! EmptyString
    ≠ Some "x"
  ∧ metadata (handleStartTag new "meta"
                [("name", Some "__proto__"); ("content", Some "x")]) !! "__proto__"
    ≠ Some "x".
Proof. split; vm_compute; discriminate. Qed.

(** C3 (amended): on an open tag named [meta], when the last [name]
    attribute carries a non-empty value other than [__proto__], the handler
    sets [metadata[name]] to the value of the last [content] attribute if
    there is one with a value, and to ["N/A"] if [content] is absent or
    [null]; every other key and the capture flag are untouched.  When the
    tag has no [name] attribute, or one whose value is empty or [null], the
    parser state is unchanged. *)
Theorem meta_tag_records (p : t) (attrs : list Attribute) :
  let p' := handleStartTag p "meta" attrs in
  (∀ key c,
      attr_value "name" attrs = Some (Some key) →
      key ≠ EmptyString → key ≠ "__proto__" →
      attr_value "content" attrs = Some (Some c) →
      metadata p' = <[key := c]> (metadata p) ∧ match_ p' = match_ p)
  ∧ (∀ key,
      attr_value "name" attrs = Some (Some key) →
      key ≠ EmptyString → key ≠ "__proto__" →
      attr_value "content" attrs = None ∨ attr_value "content" attrs = Some None →
      metadata p' = <[key := "N/A"]> (metadata p) ∧ match_ p' = match_ p)
  ∧ (attr_value "name" attrs = None → p' = p)
  ∧ (attr_value "name" attrs = Some None
     ∨ attr_value "name" attrs = Some (Some EmptyString) → p' = p).
Proof.
  cbn zeta. unfold handleStartTag. cbn [String.eqb Ascii.eqb Bool.eqb].
  rewrite scan_attrs_last.
  split; [|split; [|split]].
  - intros key c Hn Hne Hpr Hc. rewrite Hn, Hc. unfold default; cbn [from_option id].
    destruct (String.eqb_spec key EmptyString); [contradiction|].
    cbn [negb metadata match_]. rewrite set_prop_insert by assumption. auto.
  - intros key Hn Hne Hpr Hc. rewrite Hn. unfold default at 1; cbn [from_option id].
    destruct (String.eqb_spec key EmptyString); [contradiction|].
    cbn [negb metadata match_]. rewrite set_prop_insert by assumption.
    destruct Hc as [-> | ->]; auto.
  - intros ->. reflexivity.
  - intros [-> | ->]; reflexivity.
Qed.

(** The amended C3 at [<meta name="author" content="Bob">],
    [<meta name="author">] and [<meta charset="utf-8">]. *)
Lemma meta_tag_records_witness :
  metadata (handleStartTag new "meta" [("name", Some "author"); ("content", Some "Bob")])
    = <["author" := "Bob"]> ∅
  ∧ metadata (handleStartTag new "meta" [("name", Some "author")])
    = <["author" := "N/A"]> ∅
  ∧ handleStartTag new "meta" [("charset", Some "utf-8")] = new.
Proof.
  split; [|split].
  - apply (proj1 (meta_tag_records new [("name", Some "author"); ("content", Some "Bob")])
             "author" "Bob"); [reflexivity|discriminate|discriminate|reflexivity].
  - apply (proj1 (proj2 (meta_tag_records new [("name", Some "author")])) "author");
      [reflexivity|discriminate|discriminate|left; reflexivity].
  - apply (proj1 (proj2 (proj2 (meta_tag_records new [("charset", Some "utf-8")])))).
    reflexivity.
Defined.

(** C4: after an open tag named [title], whatever open tags follow, the
    flag is still armed; the first text event then becomes
    [metadata["title"]] and disarms the flag; from there on, as long as no
    [title] tag arrives, text events are ignored (the run equals the run of
    the open tags alone), and a new [title] tag arms the flag again. *)
Theorem title_capture (p : t) (a : list (string * string))
        (tags : list (string * list (string * string))) (d : string) :
  let armed := fold_left dispatch (open_tags tags) (dispatch p (onopentag "title" a)) in
  let captured := dispatch armed (ontext d) in
  match_ armed = true
  ∧ metadata captured = <["title" := d]> (metadata armed)
  ∧ match_ captured = false
  ∧ (∀ texts, fold_left dispatch (map ontext texts) captured = captured)
  ∧ (∀ evs,
        fold_left dispatch (List.filter (fun ev => negb (is_title_open ev)) evs) captured
        = fold_left dispatch
            (List.filter (fun ev => is_open ev && negb (is_title_open ev)) evs) captured)
  ∧ (∀ a', match_ (dispatch captured (onopentag "title" a')) = true).
Proof.
  cbn zeta.
  assert (Harmed : match_ (fold_left dispatch (open_tags tags)
                             (dispatch p (onopentag "title" a))) = true).
  { apply open_tags_keep_armed. reflexivity. }
  set (armed := fold_left dispatch (open_tags tags) (dispatch p (onopentag "title" a))) in *.
  assert (Hcap : dispatch armed (ontext d)
                 = {| metadata := <["title" := d]> (metadata armed); match_ := false |}).
  { cbn [dispatch]. unfold handleData. rewrite Harmed.
    rewrite set_prop_insert by discriminate. reflexivity. }
  rewrite Hcap. cbn [metadata match_].
  repeat split.
  - exact Harmed.
  - intros texts. induction texts as [|x texts IH]; [reflexivity|].
    cbn [map fold_left dispatch]. rewrite handleData_disarmed by reflexivity. exact IH.
  - intros evs. apply texts_ignored_while_disarmed. reflexivity.
Qed.

End Parser.

(** * SHA-256 test vectors (FIPS 180-4, and messages of 56 and 64 bytes) *)

Example sha256_abc :
  Buffer.toString_hex (Sha256.digest (utf8 "abc"))
  = "ba7816bf8f01cfea414140de5dae2223b00361a396177a9cb410ff61f20015ad".
Proof. vm_compute. reflexivity. Qed.

Example sha256_empty :
  Buffer.toString_hex (Sha256.digest (utf8 EmptyString))
  = "e3b0c44298fc1c149afbf4c8996fb92427ae41e4649b934ca495991b7852b855".
Proof. vm_compute. reflexivity. Qed.

Example sha256_two_blocks :
  Buffer.toString_hex (Sha256.digest (repeat 97 56))
  = "b35439a4ac6f0948b6d6f9e3c6af0f5f590ce20f1bde7090ef7970686ec6738a".
Proof. vm_compute. reflexivity. Qed.

Example sha256_full_block :
  Buffer.toString_hex (Sha256.digest (repeat 97 64))
  = "ffe054fe7ae0cb6dc65c3af9b61d5209f439851db43d0ba5997337df154668eb".
Proof. vm_compute. reflexivity. Qed.

(** * Properties of [OracleDocReader.generateObjectId] *)

Section ObjectId.

Import OracleDocReader.

Lemma writeUInt32BE_in_range (v : Z) :
  uint32 v → Buffer.writeUInt32BE (Buffer.alloc 4) v = inr (Sha256.be_bytes 4 v).
Proof.
  intros [Hlo Hhi]. unfold Buffer.writeUInt32BE.
  destruct (Z.leb_spec 0 v); [|lia]. destruct (Z.leb_spec v 4294967295); [|lia].
  cbn [andb]. cbv [Buffer.alloc repeat]. cbn [insert list_insert list_alter].
  unfold Sha256.be_bytes. cbn [seq rev app map].
  rewrite !Z.shiftr_shiftr by lia. cbn [Z.of_nat Pos.of_succ_nat Pos.succ Z.mul Pos.mul Z.add Pos.add].
  rewrite Z.shiftr_0_r. reflexivity.
Qed.

Lemma be_bytes_4_value (v : Z) :
  uint32 v → Sha256.be_value (Sha256.be_bytes 4 v) 0 = v.
Proof.
  intros [Hlo Hhi]. unfold Sha256.be_bytes. cbn [seq rev app map Sha256.be_value].
  change 255 with (Z.ones 8). rewrite !Z.land_ones by lia.
  rewrite !Z.shiftr_div_pow2 by lia.
  change (2 ^ (8 * Z.of_nat 3)) with 16777216.
  change (2 ^ (8 * Z.of_nat 2)) with 65536.
  change (2 ^ (8 * Z.of_nat 1)) with 256.
  change (2 ^ (8 * Z.of_nat 0)) with 1.
  change (2 ^ 8) with 256.
  rewrite Z.div_1_r.
  change 16777216 with (256 * 256 * 256). change 65536 with (256 * 256).
  rewrite <- !Z.div_div by lia.
  Z.div_mod_to_equations. lia.
Qed.

Lemma digest_length (msg : list Z) : length (Sha256.digest msg) = 32%nat.
Proof. reflexivity. Qed.

Lemma toString_hex_length (buf : list Z) :
  String.length (Buffer.toString_hex buf) = (2 * length buf)%nat.
Proof. induction buf as [|b buf IH]; cbn; [reflexivity|]. rewrite IH. lia. Qed.

Lemma hex_digit_lower_hex (d : Z) : is_lower_hex (Buffer.hex_digit d) = true.
Proof.
  unfold Buffer.hex_digit. generalize (Z.to_nat d). intros n.
  do 17 (destruct n as [|n]; [reflexivity|]). reflexivity.
Qed.

Lemma toString_hex_chars (buf : list Z) :
  Forall (fun c => is_lower_hex c = true) (list_ascii_of_string (Buffer.toString_hex buf)).
Proof.
  induction buf as [|b buf IH]; cbn [Buffer.toString_hex list_ascii_of_string];
    [constructor|].
  constructor; [apply hex_digit_lower_hex|].
  constructor; [apply hex_digit_lower_hex|exact IH].
Qed.

Lemma padStart_long_enough (s : string) (n : nat) (fill : ascii) :
  (n <= String.length s)%nat → padStart s n fill = s.
Proof.
  intros H. unfold padStart. replace (n - String.length s)%nat with 0%nat by lia.
  reflexivity.
Qed.

Lemma slice0_whole (s : string) (n : nat) : String.length s = n → slice0 s n = s.
Proof.
  intros <-. unfold slice0. induction s as [|c s IH]; [reflexivity|].
  cbn. rewrite IH. reflexivity.
Qed.

Lemma concat_one_char (c : ascii) (l : list string) :
  String.concat EmptyString (String c EmptyString :: l)
  = String c (String.concat EmptyString l).
Proof. destruct l; reflexivity. Qed.

Lemma charAt_alphabet (k : nat) :
  (k < 62)%nat → ∃ c, charAt alphabet k = String c EmptyString ∧ is_alnum c = true.
Proof.
  intros H.
  do 62 (destruct k as [|k]; [eexists; split; reflexivity|]). lia.
Qed.

Lemma random_chars (draw : nat → nat) (idx : list nat) :
  Forall (fun i => (draw i < 62)%nat) idx →
  let s := String.concat EmptyString (map (fun i => charAt alphabet (draw i)) idx) in
  String.length s = length idx
  ∧ Forall (fun c => is_alnum c = true) (list_ascii_of_string s).
Proof.
  induction 1 as [|i idx Hi _ IH]; cbn zeta in *; [split; [reflexivity|constructor]|].
  cbn [map]. destruct (charAt_alphabet _ Hi) as (c & -> & Hc).
  rewrite concat_one_char. cbn. destruct IH as [IHl IHc].
  split; [congruence|]. constructor; assumption.
Qed.

(** Outside the range of the four-byte field the first [writeUInt32BE]
    throws, whatever the seed. *)
Lemma generateObjectId_out_of_range (e : Entropy) (inputString : option string) :
  ¬ uint32 (now_ms e / 1000) →
  generateObjectId e inputString = inl (RangeError "The value of value is out of range").
Proof.
  intros Hts. unfold generateObjectId, Buffer.writeUInt32BE, uint32 in *. cbn zeta.
  destruct (Z.leb_spec 0 (now_ms e / 1000)); [|reflexivity].
  destruct (Z.leb_spec (now_ms e / 1000) 4294967295); [lia|reflexivity].
Qed.

(** C2 (as stated, refuted): the generator does fail.  When the clock reads
    2106-02-07T06:28:16Z the seconds no longer fit the four-byte field and
    [writeUInt32BE] throws. *)
Lemma generateObjectId_fails_after_2106 :
  generateObjectId {| now_ms := 4294967296000; seed_draw := fun _ => 0%nat;
                      counter_draw := 0 |} (Some "x")
  = inl (RangeError "The value of value is out of range").
Proof. reflexivity. Qed.

Lemma generateObjectId_in_range (e : Entropy) (inputString : option string) :
  uint32 (now_ms e / 1000) → uint32 (counter_draw e) →
  generateObjectId e inputString
  = inr (Buffer.toString_hex
           (object_id_bytes (now_ms e / 1000) (effective_seed e inputString)
                            (counter_draw e))).
Proof.
  intros Hts Hctr. unfold generateObjectId. cbn zeta.
  rewrite (writeUInt32BE_in_range _ Hts). cbn [bindE].
  rewrite (writeUInt32BE_in_range _ Hctr). cbn [bindE].
  change (Buffer.concat _)
    with (object_id_bytes (now_ms e / 1000) (effective_seed e inputString) (counter_draw e)).
  assert (Hhex : String.length (Buffer.toString_hex
                   (object_id_bytes (now_ms e / 1000) (effective_seed e inputString)
                                    (counter_draw e))) = 32%nat).
  { rewrite toString_hex_length. reflexivity. }
  rewrite padStart_long_enough by (rewrite Hhex; lia).
  rewrite (slice0_whole _ _ Hhex). reflexivity.
Qed.

(** C2 (amended): whenever the current Unix time in seconds fits an
    unsigned 32-bit field (and the counter drawn from [Math.random] does,
    as it always will), [generateObjectId] returns, for every seed, the
    hex encoding of the four big-endian bytes of the time, the first eight
    bytes of the SHA-256 of the seed and the four big-endian bytes of the
    counter: exactly 32 characters, all of them in [0-9a-f].  A non-empty
    seed is used as it is; an absent or empty one is replaced by 16
    alphanumeric characters. *)
Theorem generateObjectId_format (e : Entropy) (inputString : option string) :
  uint32 (now_ms e / 1000) → uint32 (counter_draw e) →
  let seed := effective_seed e inputString in
  let bytes := object_id_bytes (now_ms e / 1000) seed (counter_draw e) in
  generateObjectId e inputString = inr (Buffer.toString_hex bytes)
  ∧ String.length (Buffer.toString_hex bytes) = 32%nat
  ∧ Forall (fun c => is_lower_hex c = true)
           (list_ascii_of_string (Buffer.toString_hex bytes))
  ∧ length bytes = 16%nat
  ∧ Sha256.be_value (take 4 bytes) 0 = now_ms e / 1000
  ∧ take 8 (drop 4 bytes) = take 8 (Sha256.digest (utf8 seed))
  ∧ Sha256.be_value (drop 12 bytes) 0 = counter_draw e
  ∧ (∀ s, inputString = Some s → s ≠ EmptyString → seed = s)
  ∧ (inputString = None ∨ inputString = Some EmptyString →
     (∀ i, (i < 16)%nat → (seed_draw e i < 62)%nat) →
     String.length seed = 16%nat
     ∧ Forall (fun c => is_alnum c = true) (list_ascii_of_string seed)).
Proof.
  intros Hts Hctr. cbn zeta.
  set (seed := effective_seed e inputString).
  assert (Hlen : length (object_id_bytes (now_ms e / 1000) seed (counter_draw e)) = 16%nat)
    by reflexivity.
  assert (Hhex : String.length (Buffer.toString_hex
                   (object_id_bytes (now_ms e / 1000) seed (counter_draw e))) = 32%nat).
  { rewrite toString_hex_length, Hlen. reflexivity. }
  split; [|split; [exact Hhex|split; [apply toString_hex_chars|split; [exact Hlen|]]]].
  - apply generateObjectId_in_range; assumption.
  - split; [|split; [reflexivity|split; [|split]]].
    + change (take 4 _) with (Sha256.be_bytes 4 (now_ms e / 1000)).
      apply be_bytes_4_value, Hts.
    + change (drop 12 _) with (Sha256.be_bytes 4 (counter_draw e)).
      apply be_bytes_4_value, Hctr.
    + intros s -> Hs. subst seed. cbn.
      destruct (String.eqb_spec s EmptyString); [contradiction|reflexivity].
    + intros Hin Hdraws.
      assert (Hseed : seed = random_seed e) by (destruct Hin as [-> | ->]; reflexivity).
      rewrite Hseed. unfold random_seed.
      apply (random_chars (seed_draw e) (seq 0 16)).
      apply Forall_forall. intros i Hi. apply Hdraws. apply elem_of_seq in Hi. lia.
Qed.

(** The amended C2 on the sample entropy, with a seed and without. *)
Lemma generateObjectId_format_witness :
  generateObjectId sample_entropy (Some "unknown_user$TEST_USER$test_table$CONTENT_COLUMN$AAA1")
    = inr "6ae7846055efd05be3b997d512345678"
  ∧ String.length (effective_seed sample_entropy None) = 16%nat.
Proof.
  assert (Hts : uint32 (now_ms sample_entropy / 1000)) by (vm_compute; split; discriminate).
  assert (Hctr : uint32 (counter_draw sample_entropy)) by (vm_compute; split; discriminate).
  split.
  - rewrite (proj1 (generateObjectId_format sample_entropy
                      (Some "unknown_user$TEST_USER$test_table$CONTENT_COLUMN$AAA1")
                      Hts Hctr)).
    vm_compute. reflexivity.
  - apply (proj2 (proj2 (proj2 (proj2 (proj2 (proj2 (proj2 (proj2
             (generateObjectId_format sample_entropy None Hts Hctr))))))))).
    + left. reflexivity.
    + intros i Hi. cbn [seed_draw sample_entropy]. apply Nat.mod_upper_bound. discriminate.
Defined.

End ObjectId.

(** * Properties of [OracleDocLoader]: the statements of a table load *)

Section Statements.

Import OracleDocReader OracleDocLoader.

Lemma catalog_phase_run (w : World) (o t : string) (cols : list string)
      (sql0 : string) (tr : list Stmt) :
  catalog_phase w o t cols sql0 tr
  = if (3 <? length cols)%nat then (tr, inl (Error "Exceeds max columns for metadata"))
    else ((tr ++ [catalog_stmt o t])%list,
          match columns_answer w (catalog_stmt o t) with
          | inl e => inl e
          | inr None => inl (Error "Failed to retrieve column information")
          | inr (Some colRows) =>
              match check_cols t (build_colTypes colRows) cols with
              | inl e => inl e
              | inr _ => inr (append_cols cols sql0)
              end
          end).
Proof.
  unfold catalog_phase. destruct (3 <? length cols)%nat; [reflexivity|].
  unfold bind, execute, throw, lift, ret.
  destruct (columns_answer w (catalog_stmt o t)) as [e|[colRows|]]; try reflexivity.
  destruct (check_cols t (build_colTypes colRows) cols); reflexivity.
Qed.

Lemma query_rows_run (w : World) (ld : Loader) (o c : string)
      (params : list (string * string)) (tr : list Stmt) :
  query_rows w ld o c params tr
  = match mdata_cols ld with
    | None =>
        let q := main_stmt o (loadFrom ld) c ", t.ROWID AS ROWID" params in
        ((tr ++ [q])%list, rows_answer w q)
    | Some cols =>
        match catalog_phase w o (loadFrom ld) cols ", t.ROWID AS ROWID" tr with
        | (tr', inl e) => (tr', inl e)
        | (tr', inr sql1) =>
            let q := main_stmt o (loadFrom ld) c sql1 params in
            ((tr' ++ [q])%list, rows_answer w q)
        end
    end.
Proof.
  unfold query_rows, bind, execute, ret.
  destruct (mdata_cols ld) as [cols|]; [|reflexivity].
  destruct (catalog_phase w o (loadFrom ld) cols ", t.ROWID AS ROWID" tr) as [tr' [e|sql1]];
    reflexivity.
Qed.

Lemma loadFromTable_run (w : World) (ld : Loader) (params : list (string * string)) :
  loadFromTable w ld params []
  = match validate ld with
    | inl e => ([], inl e)
    | inr (o, c) =>
        match query_rows w ld o c params [] with
        | (tr, inl e) => (tr, inl e)
        | (tr, inr rows) =>
            ((tr ++ [user_stmt])%list,
             match user_answer w user_stmt with
             | inl e => inl e
             | inr ur =>
                 match rows with
                 | Some rs => rows_documents w ld o c (username_of ur) 0 rs
                 | None => inr []
                 end
             end)
        end
    end.
Proof.
  unfold loadFromTable, bind, lift.
  destruct (validate ld) as [e|[o c]]; [reflexivity|].
  destruct (query_rows w ld o c params []) as [tr [e|rows]]; [reflexivity|].
  unfold getUsername, bind, execute, ret, lift, username_of.
  destruct (user_answer w user_stmt) as [e|ur]; [reflexivity|].
  destruct rows; reflexivity.
Qed.

Lemma validate_inr (ld : Loader) (o c : string) :
  validate ld = inr (o, c) →
  owner ld = Some o ∧ colname ld = Some c
  ∧ isValidIdentifier o = true ∧ isValidIdentifier (loadFrom ld) = true
  ∧ isValidIdentifier c = true.
Proof.
  intros H. unfold validate, falsy_string in H.
  destruct (owner ld) as [o'|]; [|discriminate].
  destruct (String.eqb o' EmptyString); [discriminate|].
  destruct (colname ld) as [c'|]; [|discriminate].
  destruct (String.eqb c' EmptyString); [discriminate|].
  unfold default in H; cbn [orb from_option id] in H.
  destruct (isValidIdentifier o') eqn:E1; [|discriminate].
  destruct (isValidIdentifier (loadFrom ld)) eqn:E2; [|discriminate].
  destruct (isValidIdentifier c') eqn:E3; [|discriminate].
  cbn [negb] in H. injection H as <- <-. auto.
Qed.

Lemma validate_present (ld : Loader) (o c : string) :
  owner ld = Some o → colname ld = Some c → o ≠ EmptyString → c ≠ EmptyString →
  validate ld
  = if negb (isValidIdentifier o) then inl (Error "Invalid owner name")
    else if negb (isValidIdentifier (loadFrom ld)) then inl (Error "Invalid table name")
    else if negb (isValidIdentifier c) then inl (Error "Invalid column name")
    else inr (o, c).
Proof.
  intros Ho Hc Hne Hnc. unfold validate, falsy_string. rewrite Ho, Hc.
  destruct (String.eqb_spec o EmptyString); [contradiction|].
  destruct (String.eqb_spec c EmptyString); [contradiction|]. reflexivity.
Qed.

Lemma check_cols_rejects_invalid (t : string) (ct : gmap string string)
      (cols : list string) (col : string) :
  col ∈ cols → isValidIdentifier col = false → ∃ e, check_cols t ct cols = inl e.
Proof.
  intros Hin Hbad. induction Hin as [col rest | col other rest _ IH].
  - cbn [check_cols]. unfold check_col. rewrite Hbad. cbn. eauto.
  - cbn [check_cols]. destruct (check_col t ct other) as [e|[]]; cbn [bindE]; eauto.
Qed.

Lemma check_cols_first_invalid (t : string) (ct : gmap string string)
      (pre post : list string) (col : string) :
  check_cols t ct pre = inr tt → isValidIdentifier col = false →
  check_cols t ct (pre ++ col :: post)%list
  = inl (Error ("Invalid column name in mdata_cols: " +:+ col)).
Proof.
  intros Hpre Hbad. induction pre as [|x pre IH].
  - cbn [app check_cols]. unfold check_col. rewrite Hbad. reflexivity.
  - cbn [app check_cols] in *. destruct (check_col t ct x) as [e|[]]; cbn [bindE] in *;
      [discriminate|]. apply IH, Hpre.
Qed.

(** C6 (as stated, refuted): a load that requests an extra column executes
    three statements, the session query coming after the catalog lookup and
    the main query. *)
Lemma table_load_three_round_trips :
  ¬ (length (fst (load sample_world (sample_loader "test_table" (Some ["ID"]))))
     <= 2)%nat.
Proof. vm_compute. lia. Qed.

(** C6 (amended): the statements a [load()] executes are an initial part of
    the sequence catalog lookup (present exactly when [mdata_cols] is set,
    even to an empty list), main query, session query; hence at most three
    round trips, and at most two when [mdata_cols] is not set. *)
Theorem table_load_statements (w : World) (ld : Loader) :
  fst (load w ld) `prefix_of` planned_stmts ld
  ∧ (length (fst (load w ld))
     <= match mdata_cols ld with Some _ => 3 | None => 2 end)%nat.
Proof.
  assert (H : fst (load w ld) `prefix_of` planned_stmts ld).
  { unfold load. destruct (loadFromType ld); try apply prefix_nil.
    fold m_params. rewrite loadFromTable_run.
    destruct (validate ld) as [e|[o c]] eqn:Hv; [apply prefix_nil|].
    apply validate_inr in Hv as (Ho & Hc & _).
    rewrite query_rows_run. unfold planned_stmts. rewrite Ho, Hc.
    unfold default; cbn [from_option id].
    destruct (mdata_cols ld) as [cols|].
    - rewrite catalog_phase_run. destruct (3 <? length cols)%nat; [apply prefix_nil|].
      destruct (columns_answer w (catalog_stmt o (loadFrom ld))) as [e|[colRows|]];
        try (eexists; cbn; reflexivity).
      destruct (check_cols (loadFrom ld) (build_colTypes colRows) cols);
        [eexists; cbn; reflexivity|].
      cbn zeta.
      destruct (rows_answer w _); eexists; cbn; reflexivity.
    - cbn zeta. destruct (rows_answer w _); eexists; cbn; reflexivity. }
  split; [exact H|].
  apply prefix_length in H. unfold planned_stmts in H.
  destruct (mdata_cols ld); exact H.
Qed.

(** C7: a table load that requests more than three extra columns executes
    no statement and fails; the error is the one of a configuration check
    that fails earlier, and otherwise "Exceeds max columns for
    metadata". *)
Theorem too_many_columns_rejected (w : World) (ld : Loader) (cols : list string) :
  loadFromType ld = TABLE → mdata_cols ld = Some cols → (3 < length cols)%nat →
  load w ld
  = ([], inl match validate ld with
             | inl e => e
             | inr _ => Error "Exceeds max columns for metadata"
             end).
Proof.
  intros Ht Hcols Hlen. unfold load. rewrite Ht. rewrite loadFromTable_run.
  destruct (validate ld) as [e|[o c]]; [reflexivity|].
  rewrite query_rows_run, Hcols, catalog_phase_run.
  destruct (Nat.ltb_spec 3 (length cols)); [reflexivity|lia].
Qed.

(** C7 at four requested columns. *)
Lemma too_many_columns_rejected_witness :
  load sample_world (sample_loader "test_table" (Some ["A"; "B"; "C"; "D"]))
  = ([], inl (Error "Exceeds max columns for metadata")).
Proof.
  apply (too_many_columns_rejected sample_world
           (sample_loader "test_table" (Some ["A"; "B"; "C"; "D"]))
           ["A"; "B"; "C"; "D"]); [reflexivity|reflexivity|cbn; lia].
Defined.

(** C1 (as stated, refuted): an extra column name that fails the pattern
    is rejected only after the catalog lookup has been executed. *)
Lemma invalid_extra_column_rejected_after_catalog :
  isValidIdentifier "bad!" = false
  ∧ load sample_world (sample_loader "test_table" (Some ["bad!"]))
    = ([catalog_stmt "TEST_USER" "test_table"],
       inl (Error "Invalid column name in mdata_cols: bad!"))
  ∧ fst (load sample_world (sample_loader "test_table" (Some ["bad!"]))) ≠ [].
Proof. split; [reflexivity|]. split; [reflexivity|]. discriminate. Qed.

(** C1 (amended): in a table load, every failure of the configuration
    checks ends the call before any statement is executed; a missing or
    empty owner or content column yields "Owner and column name must be
    specified for loading from a table"; with an owner
    and a content column given, the owner, the table and the content column
    are tested against the identifier pattern in this order and the first
    that fails yields "Invalid owner name", "Invalid table name" or
    "Invalid column name".  The extra column names are tested only after
    the catalog lookup: when one of them fails the pattern the call fails
    having executed at most the catalog lookup, never the main query; and
    when the lookup returned rows and the columns before it passed their
    checks, the error is "Invalid column name in mdata_cols: " followed by
    the name. *)
Theorem identifiers_checked (w : World) (ld : Loader) :
  loadFromType ld = TABLE →
  (∀ e, validate ld = inl e → load w ld = ([], inl e))
  ∧ (owner ld = None ∨ owner ld = Some EmptyString
     ∨ colname ld = None ∨ colname ld = Some EmptyString →
     load w ld
     = ([], inl (Error "Owner and column name must be specified for loading from a table")))
  ∧ (∀ o c, owner ld = Some o → colname ld = Some c →
            o ≠ EmptyString → c ≠ EmptyString →
       (isValidIdentifier o = false →
        load w ld = ([], inl (Error "Invalid owner name")))
       ∧ (isValidIdentifier o = true → isValidIdentifier (loadFrom ld) = false →
          load w ld = ([], inl (Error "Invalid table name")))
       ∧ (isValidIdentifier o = true → isValidIdentifier (loadFrom ld) = true →
          isValidIdentifier c = false →
          load w ld = ([], inl (Error "Invalid column name"))))
  ∧ (∀ o c cols col,
       validate ld = inr (o, c) → mdata_cols ld = Some cols →
       col ∈ cols → isValidIdentifier col = false →
       ∃ tr e, load w ld = (tr, inl e)
               ∧ tr `prefix_of` [catalog_stmt o (loadFrom ld)])
  ∧ (∀ o c (pre : list string) col post colRows,
       validate ld = inr (o, c) → mdata_cols ld = Some (pre ++ col :: post)%list →
       (length (pre ++ col :: post)%list <= 3)%nat →
       columns_answer w (catalog_stmt o (loadFrom ld)) = inr (Some colRows) →
       check_cols (loadFrom ld) (build_colTypes colRows) pre = inr tt →
       isValidIdentifier col = false →
       load w ld = ([catalog_stmt o (loadFrom ld)],
                    inl (Error ("Invalid column name in mdata_cols: " +:+ col)))).
Proof.
  intros Ht.
  assert (Hearly : ∀ e, validate ld = inl e → load w ld = ([], inl e)).
  { intros e He. unfold load. rewrite Ht, loadFromTable_run, He. reflexivity. }
  split; [exact Hearly|]. split; [|split; [|split]].
  - intros Hmissing. apply Hearly. unfold validate, falsy_string.
    destruct Hmissing as [-> | [-> | [-> | ->]]]; cbn [String.eqb orb];
      try reflexivity; destruct (owner ld) as [o|]; try reflexivity;
      destruct (String.eqb o EmptyString); reflexivity.
  - intros o c Ho Hc Hne Hnc.
    pose proof (validate_present ld o c Ho Hc Hne Hnc) as Hv.
    repeat split.
    + intros H1. apply Hearly. rewrite Hv, H1. reflexivity.
    + intros H1 H2. apply Hearly. rewrite Hv, H1, H2. reflexivity.
    + intros H1 H2 H3. apply Hearly. rewrite Hv, H1, H2, H3. reflexivity.
  - intros o c cols col Hv Hcols Hin Hbad.
    unfold load. rewrite Ht, loadFromTable_run, Hv, query_rows_run, Hcols, catalog_phase_run.
    destruct (3 <? length cols)%nat; [do 2 eexists; split; [reflexivity|apply prefix_nil]|].
    destruct (columns_answer w (catalog_stmt o (loadFrom ld))) as [e|[colRows|]];
      try (do 2 eexists; split; [reflexivity|exists []; reflexivity]).
    destruct (check_cols_rejects_invalid (loadFrom ld) (build_colTypes colRows)
                cols col Hin Hbad) as [e ->].
    do 2 eexists; split; [reflexivity|exists []; reflexivity].
  - intros o c pre col post colRows Hv Hcols Hlen Hans Hpre Hbad.
    unfold load. rewrite Ht, loadFromTable_run, Hv, query_rows_run, Hcols, catalog_phase_run.
    destruct (Nat.ltb_spec 3 (length (pre ++ col :: post)%list)); [lia|].
    rewrite Hans, (check_cols_first_invalid _ _ pre post col Hpre Hbad). reflexivity.
Qed.

(** The amended C1 at a loader without owner, at a table name with an
    exclamation mark and at an extra column with one. *)
Lemma identifiers_checked_witness :
  load sample_world
       {| loadFrom := "test_table"; loadFromType := TABLE; owner := None;
          colname := Some "CONTENT_COLUMN"; mdata_cols := Some ["bad!"] |}
    = ([], inl (Error "Owner and column name must be specified for loading from a table"))
  ∧ load sample_world (sample_loader "invalid_table_name!" None)
    = ([], inl (Error "Invalid table name"))
  ∧ load sample_world (sample_loader "test_table" (Some ["ID"; "bad!"]))
    = ([catalog_stmt "TEST_USER" "test_table"],
       inl (Error "Invalid column name in mdata_cols: bad!")).
Proof.
  split; [|split].
  - apply (proj1 (proj2 (identifiers_checked sample_world
                           {| loadFrom := "test_table"; loadFromType := TABLE; owner := None;
                              colname := Some "CONTENT_COLUMN"; mdata_cols := Some ["bad!"] |}
                           eq_refl))).
    left. reflexivity.
  - apply (proj1 (proj2 (proj2 (identifiers_checked sample_world
                                  (sample_loader "invalid_table_name!" None) eq_refl)))
             "TEST_USER" "CONTENT_COLUMN");
      [reflexivity|reflexivity|discriminate|discriminate|reflexivity|reflexivity].
  - apply (proj2 (proj2 (proj2 (proj2 (identifiers_checked sample_world
                                  (sample_loader "test_table" (Some ["ID"; "bad!"])) eq_refl))))
             "TEST_USER" "CONTENT_COLUMN" ["ID"] "bad!" []
             [("ID", "NUMBER"); ("_oid", "VARCHAR2")]);
      [reflexivity|reflexivity|cbn; lia|reflexivity|reflexivity|reflexivity].
Defined.

End Statements.

(** * Properties of [OracleDocLoader]: the documents of a table load *)

Section Documents.

Import OracleDocReader OracleDocLoader.

Lemma lookup_set_prop_ne {V} (k k' : string) (v : V) (o : gmap string V) :
  k ≠ k' → JS.set_prop k v o !! k' = o !! k'.
Proof.
  intros Hne. unfold JS.set_prop. destruct (String.eqb k "__proto__"); [reflexivity|].
  apply lookup_insert_ne, Hne.
Qed.

Lemma dom_set_prop {V} (k : string) (v : V) (o : gmap string V) :
  dom o ⊆ dom (JS.set_prop k v o) ∧ dom (JS.set_prop k v o) ⊆ {[k]} ∪ dom o.
Proof.
  unfold JS.set_prop. destruct (String.eqb k "__proto__").
  - set_solver.
  - rewrite dom_insert_L. set_solver.
Qed.

Lemma copy_columns_cons (row : gmap string JS.value) (col : string) (cols : list string)
      (md : gmap string JS.value) :
  copy_columns row (col :: cols) md
  = copy_columns row cols (JS.set_prop col (JS.get_prop row col) md).
Proof. reflexivity. Qed.

Lemma copy_columns_lookup_other (row : gmap string JS.value) (cols : list string)
      (md : gmap string JS.value) (k : string) :
  k ∉ cols → copy_columns row cols md !! k = md !! k.
Proof.
  revert md. induction cols as [|col cols IH]; intros md Hk; [reflexivity|].
  apply not_elem_of_cons in Hk as [Hne Hk].
  rewrite copy_columns_cons, (IH _ Hk). apply lookup_set_prop_ne. congruence.
Qed.

Lemma copy_columns_dom (row : gmap string JS.value) (cols : list string)
      (md : gmap string JS.value) :
  dom md ⊆ dom (copy_columns row cols md)
  ∧ dom (copy_columns row cols md) ⊆ dom md ∪ list_to_set cols.
Proof.
  revert md. induction cols as [|col cols IH]; intros md.
  - cbn. set_solver.
  - rewrite copy_columns_cons.
    destruct (IH (JS.set_prop col (JS.get_prop row col) md)) as [Sub1 Sub2].
    destruct (dom_set_prop col (JS.get_prop row col) md) as [Dom1 Dom2].
    cbn [list_to_set]. split.
    + etransitivity; eassumption.
    + etransitivity; [exact Sub2|]. intros x Hx.
      apply elem_of_union in Hx as [Hx|Hx].
      * apply Dom2, elem_of_union in Hx as [Hx|Hx].
        -- apply elem_of_union_r, elem_of_union_l, Hx.
        -- apply elem_of_union_l, Hx.
      * apply elem_of_union_r, elem_of_union_r, Hx.
Qed.

Lemma initial_metadata_inv (w : World) (row md : gmap string JS.value) :
  initial_metadata w row = inr md →
  md = parsed_metadata (tokenize w) (JS.get_prop row "MDATA").
Proof.
  unfold initial_metadata, parsed_metadata, html_signature. cbn zeta.
  destruct (JS.get_prop row "MDATA") as [| |data|nz str|s]; cbn [JS.truthy].
  - intros [= <-]; reflexivity.
  - intros [= <-]; reflexivity.
  - destruct (String.eqb_spec data EmptyString) as [->|Hne]; cbn [negb].
    + intros [= <-]; reflexivity.
    + destruct (startsWith data "<!DOCTYPE html" || startsWith data "<HTML>");
        intros [= <-]; reflexivity.
  - destruct nz; [discriminate|]. intros [= <-]; reflexivity.
  - discriminate.
Qed.

Lemma initial_metadata_ok (w : World) (row : gmap string JS.value) :
  mdata_usable row = true →
  initial_metadata w row = inr (parsed_metadata (tokenize w) (JS.get_prop row "MDATA")).
Proof.
  unfold initial_metadata, mdata_usable, parsed_metadata, html_signature. cbn zeta.
  destruct (JS.get_prop row "MDATA") as [| |data|nz str|s]; cbn [JS.truthy negb];
    try reflexivity; try discriminate.
  - intros _. destruct (String.eqb_spec data EmptyString) as [->|Hne]; cbn [negb];
      [reflexivity|].
    destruct (startsWith data "<!DOCTYPE html" || startsWith data "<HTML>"); reflexivity.
  - intros H. apply negb_true_iff in H. rewrite H. reflexivity.
Qed.

Lemma row_document_inv (w : World) (ld : Loader) (o c : string) (u : JS.value)
      (e : Entropy) (row : gmap string JS.value) (doc : Document) :
  row_document w ld o c u e row = inr doc →
  ∃ oid,
    generateObjectId e (Some (row_seed u o (loadFrom ld) c (JS.get_prop row "ROWID")))
      = inr oid
    ∧ doc_metadata doc
      = copy_columns row (requested_cols ld)
          (<["_rowid" := JS.get_prop row "ROWID"]>
             (<["_oid" := JS.VStr oid]>
                (parsed_metadata (tokenize w) (JS.get_prop row "MDATA")))).
Proof.
  unfold row_document. intros H.
  destruct (initial_metadata w row) as [ex|md] eqn:Hmd; [discriminate|].
  apply initial_metadata_inv in Hmd as ->. cbn [bindE] in H.
  destruct (generateObjectId e _) as [ex|oid] eqn:Hid; [discriminate|].
  cbn [bindE] in H. exists oid. split; [reflexivity|].
  rewrite !set_prop_insert in H by discriminate.
  unfold requested_cols.
  destruct (mdata_cols ld) as [cols|]; unfold default;
    cbn [from_option id copy_columns fold_left];
    destruct (JS.get_prop row "TEXT"); injection H as <-; reflexivity.
Qed.

Lemma row_document_ok (w : World) (ld : Loader) (o c : string) (u : JS.value)
      (e : Entropy) (row : gmap string JS.value) :
  mdata_usable row = true → entropy_in_range e = true →
  ∃ doc, row_document w ld o c u e row = inr doc.
Proof.
  intros Hm He. unfold entropy_in_range in He.
  apply andb_prop in He as [He H4]. apply andb_prop in He as [He H3].
  apply andb_prop in He as [H1 H2].
  assert (Hts : uint32 (now_ms e / 1000)) by (unfold uint32; lia).
  assert (Hctr : uint32 (counter_draw e)) by (unfold uint32; lia).
  pose proof (generateObjectId_in_range e
                (Some (row_seed u o (loadFrom ld) c (JS.get_prop row "ROWID"))) Hts Hctr)
    as Hgen.
  unfold row_document. rewrite (initial_metadata_ok w row Hm). cbn [bindE].
  rewrite Hgen. cbn [bindE]. destruct (JS.get_prop row "TEXT"); eauto.
Qed.

Lemma rows_documents_inv (w : World) (ld : Loader) (o c : string) (u : JS.value)
      (rows : list (gmap string JS.value)) :
  ∀ (k : nat) (docs : list Document),
    rows_documents w ld o c u k rows = inr docs →
    length docs = length rows
    ∧ ∀ i doc, docs !! i = Some doc →
        ∃ row, rows !! i = Some row
               ∧ row_document w ld o c u (entropy w (k + i)) row = inr doc.
Proof.
  induction rows as [|row rows IH]; intros k docs H; cbn [rows_documents] in H.
  - injection H as <-. split; [reflexivity|]. intros i doc Hi. discriminate.
  - destruct (row_document w ld o c u (entropy w k) row) as [ex|d] eqn:Hd; [discriminate|].
    cbn [bindE] in H.
    destruct (rows_documents w ld o c u (S k) rows) as [ex|ds] eqn:Hds; [discriminate|].
    cbn [bindE] in H. injection H as <-.
    destruct (IH _ _ Hds) as [IHl IHd]. split; [cbn; congruence|].
    intros [|i] doc Hi; cbn in Hi.
    + injection Hi as <-. exists row. rewrite Nat.add_0_r. auto.
    + destruct (IHd _ _ Hi) as (r & Hr & Hdoc). exists r.
      replace (k + S i)%nat with (S k + i)%nat by lia. auto.
Qed.

Lemma rows_documents_ok (w : World) (ld : Loader) (o c : string) (u : JS.value)
      (rows : list (gmap string JS.value)) :
  ∀ k : nat,
    (∀ i row, rows !! i = Some row →
              mdata_usable row = true ∧ entropy_in_range (entropy w (k + i)) = true) →
    ∃ docs, rows_documents w ld o c u k rows = inr docs.
Proof.
  induction rows as [|row rows IH]; intros k H; cbn [rows_documents]; [eauto|].
  destruct (H 0%nat row eq_refl) as [Hm He]. rewrite Nat.add_0_r in He.
  destruct (row_document_ok w ld o c u _ row Hm He) as [d ->]. cbn [bindE].
  destruct (IH (S k)) as [ds ->]; [|cbn [bindE]; eauto].
  intros i r Hi. replace (S k + i)%nat with (k + S i)%nat by lia. apply (H (S i)), Hi.
Qed.

Lemma query_rows_answer (w : World) (ld : Loader) (o c : string)
      (params : list (string * string)) (tr tr' : list Stmt)
      (rows : option (list (gmap string JS.value))) :
  query_rows w ld o c params tr = (tr', inr rows) → ∃ q, rows_answer w q = inr rows.
Proof.
  rewrite query_rows_run. destruct (mdata_cols ld) as [cols|].
  - destruct (catalog_phase w o (loadFrom ld) cols ", t.ROWID AS ROWID" tr) as [t1 [e|s1]];
      [discriminate|]. cbn zeta. intros [= _ H]. eauto.
  - cbn zeta. intros [= _ H]. eauto.
Qed.

(** Every document of a successful load comes from the row of the same
    index of the main query, through the loop body. *)
Lemma loaded_document_inv (w : World) (ld : Loader) (i : nat) (doc : Document) :
  loaded_document w ld i = Some doc →
  ∃ o c q rows ur row,
    validate ld = inr (o, c)
    ∧ rows_answer w q = inr (Some rows)
    ∧ user_answer w user_stmt = inr ur
    ∧ rows !! i = Some row
    ∧ row_document w ld o c (username_of ur) (entropy w i) row = inr doc.
Proof.
  unfold loaded_document, load.
  destruct (loadFromType ld); cbn [snd]; try discriminate.
  rewrite loadFromTable_run.
  destruct (validate ld) as [e|[o c]]; [discriminate|].
  destruct (query_rows w ld o c [("plaintext", "false")] []) as [tr [e|rows]] eqn:Hq;
    [discriminate|].
  cbn [snd]. destruct (user_answer w user_stmt) as [e|ur]; [discriminate|].
  destruct rows as [rs|]; [|discriminate].
  destruct (rows_documents w ld o c (username_of ur) 0 rs) as [e|docs] eqn:Hdocs;
    [discriminate|].
  intros Hi. destruct (query_rows_answer _ _ _ _ _ _ _ _ Hq) as [q Hans].
  destruct (rows_documents_inv _ _ _ _ _ _ _ _ Hdocs) as [_ Hinv].
  destruct (Hinv _ _ Hi) as (row & Hrow & Hdoc).
  exists o, c, q, rs, ur, row. auto.
Qed.

(** C5: every document of a table load carries the metadata parsed from
    the [MDATA] of its row only when that value is a string starting with
    ["<!DOCTYPE html"] or ["<HTML>"] ([parsed_metadata] is empty otherwise),
    then [_oid], [_rowid] and the requested columns.  When [MDATA] is
    [null] or absent, the keys are [_oid], [_rowid] and requested columns
    only; in particular there is no [title] unless a requested column has
    that name. *)
Theorem html_metadata_only_with_signature (w : World) (ld : Loader) (i : nat)
        (doc : Document) :
  loaded_document w ld i = Some doc →
  ∃ q rows row oid,
    rows_answer w q = inr (Some rows) ∧ rows !! i = Some row
    ∧ doc_metadata doc
      = copy_columns row (requested_cols ld)
          (<["_rowid" := JS.get_prop row "ROWID"]>
             (<["_oid" := JS.VStr oid]>
                (parsed_metadata (tokenize w) (JS.get_prop row "MDATA"))))
    ∧ (JS.get_prop row "MDATA" = JS.VNull ∨ JS.get_prop row "MDATA" = JS.VUndefined →
       dom (doc_metadata doc) ⊆ {[ "_oid"; "_rowid" ]} ∪ list_to_set (requested_cols ld)
       ∧ "_oid" ∈ dom (doc_metadata doc) ∧ "_rowid" ∈ dom (doc_metadata doc)
       ∧ ("title" ∉ requested_cols ld → doc_metadata doc !! "title" = None)).
Proof.
  intros Hdoc.
  destruct (loaded_document_inv w ld i doc Hdoc)
    as (o & c & q & rows & ur & row & Hv & Hq & Hu & Hrow & Hrd).
  destruct (row_document_inv _ _ _ _ _ _ _ _ Hrd) as (oid & Hid & Hmd).
  exists q, rows, row, oid.
  split; [exact Hq|]. split; [exact Hrow|]. split; [exact Hmd|].
  intros Hnull.
  assert (Hempty : parsed_metadata (tokenize w) (JS.get_prop row "MDATA") = ∅)
    by (destruct Hnull as [-> | ->]; reflexivity).
  rewrite Hmd, Hempty.
  destruct (copy_columns_dom row (requested_cols ld)
              (<["_rowid" := JS.get_prop row "ROWID"]> (<["_oid" := JS.VStr oid]> ∅)))
    as [Hkeep Hsub].
  rewrite !dom_insert_L, dom_empty_L in Hkeep, Hsub.
  split; [|split; [|split]].
  - etransitivity; [exact Hsub|]. set_solver.
  - apply Hkeep. set_solver.
  - apply Hkeep. set_solver.
  - intros Htitle. rewrite copy_columns_lookup_other by exact Htitle.
    rewrite !lookup_insert_ne by discriminate. apply lookup_empty.
Qed.

(** C5 at the second sample row, whose [MDATA] is [null], with the extra
    column [ID]. *)
Lemma html_metadata_only_with_signature_witness :
  ∃ doc,
    loaded_document sample_world (sample_loader "test_table" (Some ["ID"])) 1 = Some doc
    ∧ dom (doc_metadata doc) ⊆ {[ "_oid"; "_rowid" ]} ∪ list_to_set ["ID"]
    ∧ doc_metadata doc !! "title" = None.
Proof.
  destruct (loaded_document sample_world (sample_loader "test_table" (Some ["ID"])) 1)
    as [doc|] eqn:Hdoc; [|vm_compute in Hdoc; discriminate].
  exists doc. split; [reflexivity|].
  destruct (html_metadata_only_with_signature _ _ _ _ Hdoc)
    as (q & rows & row & oid & Hq & Hrow & _ & Hnull).
  cbn in Hq. injection Hq as <-. cbn in Hrow. injection Hrow as <-.
  destruct (Hnull (or_introl eq_refl)) as (Hdom & _ & _ & Htitle).
  split; [exact Hdom|]. apply Htitle. cbn.
  intros Hin. apply list_elem_of_singleton in Hin. discriminate.
Defined.

(** C9 (as stated, refuted): when a requested extra column is itself named
    [_oid], its value is written after the generated id and replaces it. *)
Lemma extra_column_overrides_oid :
  generateObjectId (entropy sample_world 1)
    (Some (row_seed (JS.VStr "unknown_user") "TEST_USER" "test_table" "CONTENT_COLUMN"
                    (JS.VStr "AAA2")))
  = inr "6ae784603d32ca7accc9dad412345678"
  ∧ match loaded_document sample_world (sample_loader "test_table" (Some ["_oid"])) 1 with
    | Some doc => doc_metadata doc !! "_oid"
    | None => None
    end = Some (JS.VStr "forged").
Proof. split; vm_compute; reflexivity. Qed.

(** C9 (amended): in every document of a table load, [_oid] is the id
    generated for its row and [_rowid] is the row identifier, whatever the
    parsed HTML metadata contained, provided no requested extra column is
    named [_oid] (respectively [_rowid]): the extra columns are written
    last. *)
Theorem reserved_keys_stamped (w : World) (ld : Loader) (i : nat) (doc : Document) :
  loaded_document w ld i = Some doc →
  ∃ o c q rows ur row oid,
    validate ld = inr (o, c)
    ∧ rows_answer w q = inr (Some rows) ∧ rows !! i = Some row
    ∧ user_answer w user_stmt = inr ur
    ∧ generateObjectId (entropy w i)
        (Some (row_seed (username_of ur) o (loadFrom ld) c (JS.get_prop row "ROWID")))
      = inr oid
    ∧ ("_oid" ∉ requested_cols ld → doc_metadata doc !! "_oid" = Some (JS.VStr oid))
    ∧ ("_rowid" ∉ requested_cols ld →
       doc_metadata doc !! "_rowid" = Some (JS.get_prop row "ROWID")).
Proof.
  intros Hdoc.
  destruct (loaded_document_inv w ld i doc Hdoc)
    as (o & c & q & rows & ur & row & Hv & Hq & Hu & Hrow & Hrd).
  destruct (row_document_inv _ _ _ _ _ _ _ _ Hrd) as (oid & Hid & Hmd).
  exists o, c, q, rows, ur, row, oid. repeat split; try assumption.
  - intros Hcol. rewrite Hmd, copy_columns_lookup_other by exact Hcol.
    rewrite lookup_insert_ne by discriminate. apply lookup_insert_eq.
  - intros Hcol. rewrite Hmd, copy_columns_lookup_other by exact Hcol.
    apply lookup_insert_eq.
Qed.

(** The amended C9 at the first sample row, whose HTML rendering has a
    [<meta name="_oid" content="from-html">] tag. *)
Lemma reserved_keys_stamped_witness :
  ∃ doc,
    loaded_document sample_world (sample_loader "test_table" (Some ["ID"])) 0 = Some doc
    ∧ parsed_metadata sample_tokenize (JS.VStr "<HTML><title>Document 1</title>") !! "_oid"
      = Some (JS.VStr "from-html")
    ∧ doc_metadata doc !! "_oid" = Some (JS.VStr "6ae7846055efd05be3b997d512345678")
    ∧ doc_metadata doc !! "_rowid" = Some (JS.VStr "AAA1").
Proof.
  destruct (loaded_document sample_world (sample_loader "test_table" (Some ["ID"])) 0)
    as [doc|] eqn:Hdoc; [|vm_compute in Hdoc; discriminate].
  exists doc. split; [reflexivity|]. split; [reflexivity|].
  destruct (reserved_keys_stamped _ _ _ _ Hdoc)
    as (o & c & q & rows & ur & row & oid & Hv & Hq & Hrow & Hu & Hid & Hoid & Hrowid).
  cbn in Hv. injection Hv as <- <-.
  cbn in Hq. injection Hq as <-. cbn in Hrow. injection Hrow as <-.
  cbn in Hu. injection Hu as <-.
  assert (Hnot : ∀ k : string, k ≠ "ID" → k ∉ requested_cols (sample_loader "test_table" (Some ["ID"]))).
  { intros k Hk Hin. cbn in Hin. apply list_elem_of_singleton in Hin. contradiction. }
  split.
  - rewrite (Hoid (Hnot "_oid" ltac:(discriminate))). f_equal. f_equal.
    vm_compute in Hid. injection Hid as <-. reflexivity.
  - rewrite (Hrowid (Hnot "_rowid" ltac:(discriminate))). reflexivity.
Defined.

Lemma first_cell_no_user (ur : option (list (list JS.value))) :
  no_session_user ur → username_of ur = JS.VStr "unknown_user".
Proof. intros [-> | [-> | (cells & more & ->)]]; reflexivity. Qed.

(** C10: when the session query returns no rows or a [null] value,
    [getUsername] resolves to ["unknown_user"] and the load goes on as
    with that user: after a successful main query the result is that of
    the loop run with this name, it is an empty list when the main query
    has no [rows], and when every row has a usable [MDATA] and the clock and
    counter are in range the load returns one document per row whose id is
    generated from the seed text [unknown_user$owner$table$column$rowid],
    the literal ["unknown_user"] standing where the session user would. *)
Theorem unknown_user_fallback (w : World) (ld : Loader) (o c : string)
        (tr : list Stmt) (rows : option (list (gmap string JS.value)))
        (ur : option (list (list JS.value))) :
  loadFromType ld = TABLE →
  validate ld = inr (o, c) →
  query_rows w ld o c m_params [] = (tr, inr rows) →
  user_answer w user_stmt = inr ur →
  no_session_user ur →
  getUsername w tr = ((tr ++ [user_stmt])%list, inr (JS.VStr "unknown_user"))
  ∧ load w ld
    = ((tr ++ [user_stmt])%list,
       match rows with
       | Some rs => rows_documents w ld o c (JS.VStr "unknown_user") 0 rs
       | None => inr []
       end)
  ∧ (∀ rs, rows = Some rs →
       (∀ i row, rs !! i = Some row →
                 mdata_usable row = true ∧ entropy_in_range (entropy w i) = true) →
       ∃ docs,
         snd (load w ld) = inr docs ∧ length docs = length rs
         ∧ ∀ i doc, docs !! i = Some doc →
             ∃ row oid,
               rs !! i = Some row
               ∧ generateObjectId (entropy w i)
                   (Some ("unknown_user$" +:+ o +:+ "$" +:+ loadFrom ld +:+ "$" +:+ c
                          +:+ "$" +:+ JS.to_string (JS.get_prop row "ROWID")))
                 = inr oid
               ∧ ("_oid" ∉ requested_cols ld →
                  doc_metadata doc !! "_oid" = Some (JS.VStr oid))).
Proof.
  intros Ht Hv Hq Hu Hno.
  pose proof (first_cell_no_user ur Hno) as Hname.
  assert (Hload : load w ld
                  = ((tr ++ [user_stmt])%list,
                     match rows with
                     | Some rs => rows_documents w ld o c (JS.VStr "unknown_user") 0 rs
                     | None => inr []
                     end)).
  { unfold load. rewrite Ht. fold m_params.
    rewrite loadFromTable_run, Hv, Hq, Hu, Hname. reflexivity. }
  split; [|split; [exact Hload|]].
  - unfold getUsername, bind, execute, ret. rewrite Hu.
    fold (username_of ur). rewrite Hname. reflexivity.
  - intros rs -> Hrows. rewrite Hload. cbn [snd].
    destruct (rows_documents_ok w ld o c (JS.VStr "unknown_user") rs 0%nat Hrows)
      as [docs Hdocs].
    exists docs. split; [exact Hdocs|].
    destruct (rows_documents_inv _ _ _ _ _ _ _ _ Hdocs) as [Hlen Hinv].
    split; [exact Hlen|]. intros i doc Hi.
    destruct (Hinv _ _ Hi) as (row & Hrow & Hrd). cbn [Nat.add] in Hrd.
    destruct (row_document_inv _ _ _ _ _ _ _ _ Hrd) as (oid & Hid & Hmd).
    exists row, oid. split; [exact Hrow|]. split; [exact Hid|].
    intros Hcol. rewrite Hmd, copy_columns_lookup_other by exact Hcol.
    rewrite lookup_insert_ne by discriminate. apply lookup_insert_eq.
Qed.

(** C10 on the sample connection, whose session query returns no rows: the
    id of the first document is the one generated from the seed
    [unknown_user$TEST_USER$test_table$CONTENT_COLUMN$AAA1]. *)
Lemma unknown_user_fallback_witness :
  ∃ docs doc,
    snd (load sample_world (sample_loader "test_table" None)) = inr docs
    ∧ length docs = 2%nat
    ∧ docs !! 0%nat = Some doc
    ∧ generateObjectId sample_entropy
        (Some "unknown_user$TEST_USER$test_table$CONTENT_COLUMN$AAA1")
      = inr "6ae7846055efd05be3b997d512345678"
    ∧ doc_metadata doc !! "_oid" = Some (JS.VStr "6ae7846055efd05be3b997d512345678").
Proof.
  destruct (unknown_user_fallback sample_world (sample_loader "test_table" None)
              "TEST_USER" "CONTENT_COLUMN"
              [main_stmt "TEST_USER" "test_table" "CONTENT_COLUMN" ", t.ROWID AS ROWID"
                         m_params]
              (Some [ sample_row (JS.VStr "<HTML><title>Document 1</title>") "AAA1";
                      sample_row JS.VNull "AAA2" ])
              (Some [])
              eq_refl eq_refl eq_refl eq_refl (or_intror (or_introl eq_refl)))
    as (_ & _ & Hdocs).
  destruct (Hdocs _ eq_refl) as (docs & Hres & Hlen & Hseed).
  - intros [|[|i]] row Hrow; cbn in Hrow; try discriminate;
      injection Hrow as <-; split; reflexivity.
  - destruct docs as [|doc docs]; [discriminate Hlen|].
    exists (doc :: docs), doc. split; [exact Hres|]. split; [exact Hlen|].
    split; [reflexivity|].
    destruct (Hseed 0%nat doc eq_refl) as (row & oid & Hrow & Hid & Hoid).
    cbn in Hrow. injection Hrow as <-.
    assert (Hgen : generateObjectId sample_entropy
                     (Some "unknown_user$TEST_USER$test_table$CONTENT_COLUMN$AAA1")
                   = inr "6ae7846055efd05be3b997d512345678") by (vm_compute; reflexivity).
    split; [exact Hgen|].
    change (generateObjectId sample_entropy
              (Some "unknown_user$TEST_USER$test_table$CONTENT_COLUMN$AAA1") = inr oid) in Hid.
    rewrite Hgen in Hid. injection Hid as <-.
    apply Hoid. cbn. apply not_elem_of_nil.
Defined.

End Documents.

(** * Properties of [OracleDocReader.readFile] *)

Section FileIngestion.

Import OracleDocReader.

(** C8: when reading the file fails, or when the file is read and the
    extraction call fails, [readFile] does not propagate the exception: it
    logs it, logs that the file is skipped, and resolves to [null]. *)
Theorem readFile_swallows_failures (w : FileWorld) (filePath : string)
        (params : list (string * string)) (ex : Exn) :
  fs_readFile w filePath = inl ex
  ∨ (∃ data, fs_readFile w filePath = inr (Some data)
             ∧ extract_answer w data (JSON_stringify params) = inl ex) →
  readFile w filePath params
  = ([ "An exception occurred: " +:+ exn_to_string ex;
       "Skip processing " +:+ filePath ], None).
Proof.
  intros [Hfs | (data & Hfs & Hex)]; unfold readFile, readFile_body; cbn zeta;
    rewrite Hfs; cbn [bindE]; [reflexivity|].
  rewrite Hex. reflexivity.
Qed.

(** C8 on a missing file and on a rejected extraction. *)
Lemma readFile_swallows_failures_witness :
  readFile unreadable_world "/tmp/report.pdf" [("plaintext", "false")]
    = ([ "An exception occurred: Error: ENOENT: no such file or directory";
         "Skip processing /tmp/report.pdf" ], None)
  ∧ readFile failing_extraction_world "/tmp/report.pdf" [("plaintext", "false")]
    = ([ "An exception occurred: Error: ORA-20000: unsupported document";
         "Skip processing /tmp/report.pdf" ], None).
Proof.
  split.
  - apply (readFile_swallows_failures unreadable_world "/tmp/report.pdf"
             [("plaintext", "false")]
             (External "Error: ENOENT: no such file or directory")).
    left. reflexivity.
  - apply (readFile_swallows_failures failing_extraction_world "/tmp/report.pdf"
             [("plaintext", "false")]
             (External "Error: ORA-20000: unsupported document")).
    right. exists [37; 80; 68; 70]. split; reflexivity.
Defined.

End FileIngestion.

(** * Further properties: identifiers *)

Section Identifiers.

Import OracleDocReader OracleDocLoader.

Lemma ident_start_part (c : ascii) : is_ident_start c = true → is_ident_part c = true.
Proof. unfold is_ident_part. intros ->. reflexivity. Qed.

Lemma ident_start_not_digit (c : ascii) :
  is_ident_part c = true → is_digit c = false → is_ident_start c = true.
Proof.
  unfold is_ident_part. intros H Hd. rewrite Hd in H.
  rewrite orb_false_r in H. exact H.
Qed.

Lemma ident_start_is_not_digit (c : ascii) : is_ident_start c = true → is_digit c = false.
Proof.
  unfold is_ident_start, is_upper, is_lower, is_underscore, is_digit.
  generalize (nat_of_ascii c). intros n H.
  apply orb_prop in H as [H|H]; [apply orb_prop in H as [H|H]|].
  - apply andb_prop in H as [H1 H2]. apply Nat.leb_le in H1.
    apply andb_false_iff. right. apply Nat.leb_gt. lia.
  - apply andb_prop in H as [H1 H2]. apply Nat.leb_le in H1.
    apply andb_false_iff. right. apply Nat.leb_gt. lia.
  - apply Nat.eqb_eq in H. subst n. reflexivity.
Qed.

Lemma ident_part_code (c : ascii) :
  is_ident_part c = true ↔ allowed_code (nat_of_ascii c).
Proof.
  unfold is_ident_part, is_ident_start, is_upper, is_lower, is_underscore, is_digit,
    allowed_code.
  generalize (nat_of_ascii c). intros n.
  rewrite !orb_true_iff, !andb_true_iff, !Nat.leb_le, Nat.eqb_eq. lia.
Qed.

Lemma digit_code (c : ascii) :
  is_digit c = false ↔ ¬ (48 <= nat_of_ascii c <= 57)%nat.
Proof.
  unfold is_digit. generalize (nat_of_ascii c). intros n.
  rewrite andb_false_iff, !Nat.leb_gt. lia.
Qed.

(** X1: stated on character codes, a string passes the identifier test
    exactly when it is not empty, its first character is not a digit, and
    the code of every character is that of a digit (48-57), an upper-case
    letter (65-90), the underscore (95) or a lower-case letter (97-122).
    Hence a single character of any other code (a control character, a
    space, a quote, a dot, a semicolon, any other punctuation, any byte of a
    non-ASCII character) makes the test reject the string. *)
Theorem isValidIdentifier_chars (s : string) :
  (isValidIdentifier s = true
   ↔ s ≠ EmptyString
     ∧ (∀ c rest, s = String c rest → ¬ (48 <= nat_of_ascii c <= 57)%nat)
     ∧ Forall (fun c => allowed_code (nat_of_ascii c)) (list_ascii_of_string s))
  ∧ (∀ c, c ∈ list_ascii_of_string s →
          ((nat_of_ascii c < 48)%nat ∨ (58 <= nat_of_ascii c <= 64)%nat
           ∨ (91 <= nat_of_ascii c <= 94)%nat ∨ nat_of_ascii c = 96%nat
           ∨ (123 <= nat_of_ascii c)%nat) →
          isValidIdentifier s = false).
Proof.
  assert (Hiff : isValidIdentifier s = true
                 ↔ s ≠ EmptyString
                   ∧ (∀ c rest, s = String c rest → ¬ (48 <= nat_of_ascii c <= 57)%nat)
                   ∧ Forall (fun c => allowed_code (nat_of_ascii c))
                            (list_ascii_of_string s)).
  { destruct s as [|c rest]; cbn [isValidIdentifier list_ascii_of_string].
    - split; [discriminate|]. intros [H _]. contradiction.
    - rewrite andb_true_iff, forallb_forall. split.
      + intros [Hc Hrest]. split; [discriminate|]. split.
        * intros c' rest' [= <- <-]. apply digit_code, ident_start_is_not_digit, Hc.
        * constructor; [apply ident_part_code, ident_start_part, Hc|].
          apply Forall_forall. intros x Hx.
          apply ident_part_code, Hrest, list_elem_of_In, Hx.
      + intros (_ & Hd & Hall). apply Forall_cons in Hall as [Hc Hrest]. split.
        * apply ident_start_not_digit; [apply ident_part_code, Hc|].
          apply digit_code, (Hd c rest eq_refl).
        * intros x Hx. rewrite Forall_forall in Hrest.
          apply ident_part_code, Hrest, list_elem_of_In, Hx. }
  split; [exact Hiff|].
  intros c Hc Hcode. destruct (isValidIdentifier s) eqn:Hvalid; [|reflexivity].
  destruct (proj1 Hiff eq_refl) as (_ & _ & Hall).
  rewrite Forall_forall in Hall. specialize (Hall c Hc). unfold allowed_code in Hall. lia.
Qed.

(** X1 at an accepted name and at names with a space, a quote, a dot, a
    semicolon and the first byte of a two-byte UTF-8 character. *)
Lemma isValidIdentifier_chars_witness :
  Forall (fun c => allowed_code (nat_of_ascii c)) (list_ascii_of_string "_col9")
  ∧ isValidIdentifier "col 9" = false
  ∧ isValidIdentifier "col'9" = false
  ∧ isValidIdentifier "t.col" = false
  ∧ isValidIdentifier "col;" = false
  ∧ isValidIdentifier (String "c" (String (ascii_of_nat 195) (String (ascii_of_nat 169)
                                                                 EmptyString))) = false.
Proof.
  split; [|split; [|split; [|split; [|split]]]].
  - apply (proj1 (proj1 (isValidIdentifier_chars "_col9"))). reflexivity.
  - apply (proj2 (isValidIdentifier_chars "col 9") " "%char).
    + apply list_elem_of_In. cbn. auto.
    + left. vm_compute. lia.
  - apply (proj2 (isValidIdentifier_chars "col'9") "'"%char).
    + apply list_elem_of_In. cbn. auto.
    + left. vm_compute. lia.
  - apply (proj2 (isValidIdentifier_chars "t.col") "."%char).
    + apply list_elem_of_In. cbn. auto.
    + left. vm_compute. lia.
  - apply (proj2 (isValidIdentifier_chars "col;") ";"%char).
    + apply list_elem_of_In. cbn. auto 6.
    + right. left. vm_compute. lia.
  - apply (proj2 (isValidIdentifier_chars
                    (String "c" (String (ascii_of_nat 195) (String (ascii_of_nat 169)
                                                              EmptyString))))
             (ascii_of_nat 195)).
    + apply list_elem_of_In. cbn. auto.
    + do 4 right. vm_compute. lia.
Defined.

Lemma upper_char (c : ascii) :
  is_lower c = true →
  let u := ascii_of_nat (nat_of_ascii c - 32) in
  is_upper u = true ∧ is_lower u = false.
Proof.
  unfold is_lower, is_upper. intros H. apply andb_prop in H as [H1 H2].
  apply Nat.leb_le in H1, H2. cbn zeta.
  rewrite nat_ascii_embedding by lia. split.
  - apply andb_true_iff. split; apply Nat.leb_le; lia.
  - apply andb_false_iff. left. apply Nat.leb_gt. lia.
Qed.

Lemma upper_of_idem (c : ascii) : upper_of (upper_of c) = upper_of c.
Proof.
  unfold upper_of. destruct (is_lower c) eqn:Hc.
  - destruct (upper_char c Hc) as [_ ->]. reflexivity.
  - rewrite Hc. reflexivity.
Qed.

Lemma upper_of_start (c : ascii) : is_ident_start c = true → is_ident_start (upper_of c) = true.
Proof.
  unfold upper_of. destruct (is_lower c) eqn:Hc; [|auto].
  intros _. destruct (upper_char c Hc) as [Hu _].
  unfold is_ident_start. rewrite Hu. reflexivity.
Qed.

Lemma upper_of_part (c : ascii) : is_ident_part c = true → is_ident_part (upper_of c) = true.
Proof.
  unfold upper_of. destruct (is_lower c) eqn:Hc; [|auto].
  intros _. destruct (upper_char c Hc) as [Hu _].
  unfold is_ident_part, is_ident_start. rewrite Hu. reflexivity.
Qed.

Lemma toUpperCase_cons (c : ascii) (s : string) :
  toUpperCase (String c s) = String (upper_of c) (toUpperCase s).
Proof. reflexivity. Qed.

Lemma toUpperCase_chars (s : string) :
  list_ascii_of_string (toUpperCase s) = map upper_of (list_ascii_of_string s).
Proof.
  unfold toUpperCase, string_of_chars. apply list_ascii_of_string_of_list_ascii.
Qed.

(** X2: upper-casing, as applied to the owner and the table name bound to
    the catalog lookup, keeps a valid identifier valid and of the same
    length, and upper-casing twice is upper-casing once. *)
Theorem toUpperCase_identifier (s : string) :
  isValidIdentifier s = true →
  isValidIdentifier (toUpperCase s) = true
  ∧ String.length (toUpperCase s) = String.length s
  ∧ toUpperCase (toUpperCase s) = toUpperCase s.
Proof.
  intros H. split; [|split].
  - destruct s as [|c rest]; [discriminate|].
    rewrite toUpperCase_cons. cbn [isValidIdentifier] in *.
    apply andb_prop in H as [Hc Hrest]. apply andb_true_iff. split.
    + apply upper_of_start, Hc.
    + rewrite toUpperCase_chars. rewrite forallb_forall in *.
      intros x Hx. apply in_map_iff in Hx as (y & <- & Hy). apply upper_of_part, Hrest, Hy.
  - clear H. induction s as [|c rest IH]; [reflexivity|].
    rewrite toUpperCase_cons. cbn [String.length]. rewrite IH. reflexivity.
  - clear H. induction s as [|c rest IH]; [reflexivity|].
    rewrite !toUpperCase_cons, upper_of_idem, IH. reflexivity.
Qed.

(** X2 at a mixed-case owner. *)
Lemma toUpperCase_identifier_witness :
  isValidIdentifier (toUpperCase "Test_user1") = true
  ∧ String.length (toUpperCase "Test_user1") = 10%nat
  ∧ toUpperCase (toUpperCase "Test_user1") = toUpperCase "Test_user1".
Proof. apply (toUpperCase_identifier "Test_user1"). reflexivity. Defined.

End Identifiers.

(** * Further properties: the table path *)

Section TablePath.

Import OracleDocReader OracleDocLoader.

Lemma includes_supported_nonempty (ty : string) :
  includes supported_types ty = true → String.eqb ty EmptyString = false.
Proof. destruct ty; [discriminate|reflexivity]. Qed.

Lemma check_col_accepted (t : string) (ct : gmap string string) (col : string) :
  check_col t ct col = inr tt ↔ column_accepted ct col.
Proof.
  unfold check_col, column_accepted, JS.read_prop.
  destruct (isValidIdentifier col); cbn [negb]; [|split; [discriminate|intros [? _]; discriminate]].
  destruct (ct !! col) as [ty|].
  - destruct (String.eqb ty EmptyString) eqn:He.
    + split; [discriminate|]. intros (_ & ty' & [= <-] & Hin).
      apply includes_supported_nonempty in Hin. congruence.
    + destruct (includes supported_types ty) eqn:Hin; cbn [negb].
      * split; [|reflexivity]. intros _. split; [reflexivity|]. eauto.
      * split; [discriminate|]. intros (_ & ty' & [= <-] & Hin'). congruence.
  - destruct (JS.assoc col JS.object_prototype);
      (split; [discriminate|intros (_ & ty & Hty & _); discriminate]).
Qed.

Lemma check_cols_accepted (t : string) (ct : gmap string string) (cols : list string) :
  check_cols t ct cols = inr tt ↔ Forall (column_accepted ct) cols.
Proof.
  induction cols as [|col cols IH]; cbn [check_cols].
  - split; [constructor|reflexivity].
  - rewrite Forall_cons, <- IH, <- (check_col_accepted t).
    destruct (check_col t ct col) as [e|[]]; cbn [bindE].
    + split; [discriminate|intros [? _]; discriminate].
    + split; [auto|intros [_ H]; exact H].
Qed.

Lemma check_cols_unit (t : string) (ct : gmap string string) (cols : list string) (u : unit) :
  check_cols t ct cols = inr u → check_cols t ct cols = inr tt.
Proof. destruct u. auto. Qed.

Lemma build_colTypes_no_proto (colRows : list (string * string)) :
  build_colTypes colRows !! "__proto__" = None.
Proof.
  unfold build_colTypes.
  assert (H : ∀ m : gmap string string,
             m !! "__proto__" = None →
             fold_left (fun colTypes '(colName, dataType) =>
                          JS.set_prop colName dataType colTypes) colRows m
               !! "__proto__" = None).
  { induction colRows as [|[k v] rows IH]; intros m Hm; [exact Hm|].
    cbn [fold_left]. apply IH. unfold JS.set_prop.
    destruct (String.eqb_spec k "__proto__") as [->|Hk]; [exact Hm|].
    rewrite lookup_insert_ne by exact Hk. exact Hm. }
  apply H, lookup_empty.
Qed.

(** How [query_rows] ends, statement by statement. *)
Lemma query_rows_cases (w : World) (ld : Loader) (o c : string) :
  let t := loadFrom ld in
  let main := the_main_stmt ld o c in
  match mdata_cols ld with
  | None =>
      query_rows w ld o c m_params [] = ([main], rows_answer w main)
  | Some cols =>
      if (3 <? length cols)%nat then
        query_rows w ld o c m_params []
        = ([], inl (Error "Exceeds max columns for metadata"))
      else
        match columns_answer w (catalog_stmt o t) with
        | inl e => query_rows w ld o c m_params [] = ([catalog_stmt o t], inl e)
        | inr None =>
            query_rows w ld o c m_params []
            = ([catalog_stmt o t], inl (Error "Failed to retrieve column information"))
        | inr (Some colRows) =>
            match check_cols t (build_colTypes colRows) cols with
            | inl e => query_rows w ld o c m_params [] = ([catalog_stmt o t], inl e)
            | inr _ =>
                query_rows w ld o c m_params []
                = ([catalog_stmt o t; main], rows_answer w main)
            end
        end
  end.
Proof.
  cbn zeta. unfold the_main_stmt, requested_cols. rewrite query_rows_run.
  destruct (mdata_cols ld) as [cols|]; [|reflexivity].
  rewrite catalog_phase_run. destruct (3 <? length cols)%nat; [reflexivity|].
  destruct (columns_answer w (catalog_stmt o (loadFrom ld))) as [e|[colRows|]];
    try reflexivity.
  destruct (check_cols (loadFrom ld) (build_colTypes colRows) cols); reflexivity.
Qed.

Lemma load_table (w : World) (ld : Loader) :
  loadFromType ld = TABLE → load w ld = loadFromTable w ld m_params [].
Proof. intros Ht. unfold load. rewrite Ht. reflexivity. Qed.

(** What a successful table load went through. *)
Lemma load_success_inv (w : World) (ld : Loader) (tr : list Stmt) (docs : list Document) :
  loadFromType ld = TABLE → load w ld = (tr, inr docs) →
  ∃ o c rows ur,
    validate ld = inr (o, c)
    ∧ (∀ cols, mdata_cols ld = Some cols →
               (length cols <= 3)%nat
               ∧ ∃ colRows,
                   columns_answer w (catalog_stmt o (loadFrom ld)) = inr (Some colRows)
                   ∧ check_cols (loadFrom ld) (build_colTypes colRows) cols = inr tt)
    ∧ rows_answer w (the_main_stmt ld o c) = inr rows
    ∧ user_answer w user_stmt = inr ur
    ∧ match rows with
      | Some rs => rows_documents w ld o c (username_of ur) 0 rs
      | None => inr []
      end = inr docs.
Proof.
  intros Ht H. rewrite (load_table w ld Ht), loadFromTable_run in H.
  destruct (validate ld) as [e|[o c]] eqn:Hv; [discriminate|].
  pose proof (query_rows_cases w ld o c) as Hq. cbn zeta in Hq.
  exists o, c.
  destruct (mdata_cols ld) as [cols|] eqn:Hcols.
  - destruct (Nat.ltb_spec 3 (length cols)); [rewrite Hq in H; discriminate|].
    destruct (columns_answer w (catalog_stmt o (loadFrom ld))) as [e|[colRows|]];
      try (rewrite Hq in H; discriminate).
    destruct (check_cols (loadFrom ld) (build_colTypes colRows) cols) as [e|u] eqn:Hck;
      [rewrite Hq in H; discriminate|].
    rewrite Hq in H.
    destruct (rows_answer w (the_main_stmt ld o c)) as [e|rows]; [discriminate|].
    destruct (user_answer w user_stmt) as [e|ur]; [discriminate|].
    exists rows, ur. injection H as _ H.
    split; [reflexivity|]. split.
    { intros cols' [= <-]. split; [lia|]. exists colRows. split; [reflexivity|].
      apply (check_cols_unit _ _ _ _ Hck). }
    split; [reflexivity|]. split; [reflexivity|]. exact H.
  - rewrite Hq in H.
    destruct (rows_answer w (the_main_stmt ld o c)) as [e|rows]; [discriminate|].
    destruct (user_answer w user_stmt) as [e|ur]; [discriminate|].
    exists rows, ur. injection H as _ H.
    split; [reflexivity|]. split; [discriminate|].
    split; [reflexivity|]. split; [reflexivity|]. exact H.
Qed.

Lemma query_rows_accepted (w : World) (ld : Loader) (o c : string) :
  catalog_accepts w ld o →
  query_rows w ld o c m_params []
  = (stmts_to_main ld o c, rows_answer w (the_main_stmt ld o c)).
Proof.
  intros Hacc. pose proof (query_rows_cases w ld o c) as Hq. cbn zeta in Hq.
  unfold stmts_to_main. destruct (mdata_cols ld) as [cols|] eqn:Hcols; [|exact Hq].
  destruct (Hacc cols Hcols) as (Hlen & colRows & Hans & Hall).
  destruct (Nat.ltb_spec 3 (length cols)); [lia|].
  rewrite Hans in Hq. apply (check_cols_accepted (loadFrom ld)) in Hall.
  rewrite Hall in Hq. exact Hq.
Qed.

Lemma load_accepted (w : World) (ld : Loader) (o c : string) :
  loadFromType ld = TABLE → validate ld = inr (o, c) → catalog_accepts w ld o →
  load w ld
  = match rows_answer w (the_main_stmt ld o c) with
    | inl e => (stmts_to_main ld o c, inl e)
    | inr rows =>
        ((stmts_to_main ld o c ++ [user_stmt])%list,
         match user_answer w user_stmt with
         | inl e => inl e
         | inr ur =>
             match rows with
             | Some rs => rows_documents w ld o c (username_of ur) 0 rs
             | None => inr []
             end
         end)
    end.
Proof.
  intros Ht Hv Hacc.
  rewrite (load_table w ld Ht), loadFromTable_run, Hv, (query_rows_accepted w ld o c Hacc).
  destruct (rows_answer w (the_main_stmt ld o c)); reflexivity.
Qed.

Lemma includes_elem (l : list string) (s : string) : includes l s = true → s ∈ l.
Proof.
  unfold includes. intros H. apply existsb_exists in H as (x & Hx & Heq).
  apply String.eqb_eq in Heq. subst x. apply list_elem_of_In, Hx.
Qed.

Lemma sample_catalog_accepts :
  catalog_accepts sample_world (sample_loader "test_table" (Some ["ID"])) "TEST_USER".
Proof.
  intros cols [= <-]. split; [cbn; lia|].
  exists [("ID", "NUMBER"); ("_oid", "VARCHAR2")]. split; [reflexivity|].
  constructor; [|constructor]. split; [reflexivity|]. exists "NUMBER". split; reflexivity.
Defined.

(** X3: whenever a table load executes a statement, the owner, the table
    and the content column match the identifier pattern, and the statement
    is the session query, the catalog lookup (a constant text with bound
    values) or the main query; the main query, the only text built from
    names, is executed only when every requested column matches the pattern
    too. *)
Theorem executed_statements (w : World) (ld : Loader) (q : Stmt) :
  q ∈ fst (load w ld) →
  ∃ o c,
    owner ld = Some o ∧ colname ld = Some c
    ∧ isValidIdentifier o = true ∧ isValidIdentifier (loadFrom ld) = true
    ∧ isValidIdentifier c = true
    ∧ (q = user_stmt
       ∨ q = catalog_stmt o (loadFrom ld)
       ∨ (q = the_main_stmt ld o c
          ∧ Forall (fun col => isValidIdentifier col = true) (requested_cols ld))).
Proof.
  unfold load. destruct (loadFromType ld); cbn [fst];
    try (intros H; apply elem_of_nil in H; contradiction).
  fold m_params. rewrite loadFromTable_run.
  destruct (validate ld) as [e|[o c]] eqn:Hv; cbn [fst];
    [intros H; apply elem_of_nil in H; contradiction|].
  destruct (validate_inr ld o c Hv) as (Ho & Hc & V1 & V2 & V3).
  intros Hq. exists o, c. repeat (split; [assumption|]).
  pose proof (query_rows_cases w ld o c) as Hcases. cbn zeta in Hcases.
  assert (Hmain : ∀ cols u colRows,
             mdata_cols ld = Some cols →
             check_cols (loadFrom ld) (build_colTypes colRows) cols = inr u →
             Forall (fun col => isValidIdentifier col = true) (requested_cols ld)).
  { intros cols u colRows Hcols Hck. unfold requested_cols. rewrite Hcols. cbn.
    apply check_cols_unit, check_cols_accepted in Hck.
    eapply Forall_impl; [exact Hck|]. intros col [Hvalid _]. exact Hvalid. }
  destruct (mdata_cols ld) as [cols|] eqn:Hcols.
  - destruct (3 <? length cols)%nat;
      [rewrite Hcases in Hq; apply elem_of_nil in Hq; contradiction|].
    destruct (columns_answer w (catalog_stmt o (loadFrom ld))) as [e|[colRows|]].
    + rewrite Hcases in Hq. apply list_elem_of_singleton in Hq. auto.
    + destruct (check_cols (loadFrom ld) (build_colTypes colRows) cols) as [e|u] eqn:Hck.
      * rewrite Hcases in Hq. apply list_elem_of_singleton in Hq. auto.
      * rewrite Hcases in Hq.
        assert (Hin : q ∈ [catalog_stmt o (loadFrom ld); the_main_stmt ld o c; user_stmt]).
        { destruct (rows_answer w (the_main_stmt ld o c)); cbn in Hq;
            repeat (apply elem_of_cons in Hq as [->|Hq]; [set_solver|]);
            apply elem_of_nil in Hq; contradiction. }
        repeat (apply elem_of_cons in Hin as [->|Hin]); eauto 6.
        apply elem_of_nil in Hin. contradiction.
    + rewrite Hcases in Hq. apply list_elem_of_singleton in Hq. auto.
  - rewrite Hcases in Hq.
    assert (Hin : q ∈ [the_main_stmt ld o c; user_stmt]).
    { destruct (rows_answer w (the_main_stmt ld o c)); cbn in Hq;
        repeat (apply elem_of_cons in Hq as [->|Hq]; [set_solver|]);
        apply elem_of_nil in Hq; contradiction. }
    repeat (apply elem_of_cons in Hin as [->|Hin]); auto.
    + right. right. split; [reflexivity|]. unfold requested_cols. rewrite Hcols. constructor.
    + apply elem_of_nil in Hin. contradiction.
Qed.

(** X3 at the main statement of a load that requests the column [ID]. *)
Lemma executed_statements_witness :
  the_main_stmt (sample_loader "test_table" (Some ["ID"])) "TEST_USER" "CONTENT_COLUMN"
    ∈ fst (load sample_world (sample_loader "test_table" (Some ["ID"])))
  ∧ ∃ o c, owner (sample_loader "test_table" (Some ["ID"])) = Some o
           ∧ colname (sample_loader "test_table" (Some ["ID"])) = Some c
           ∧ isValidIdentifier o = true.
Proof.
  assert (Hin : the_main_stmt (sample_loader "test_table" (Some ["ID"]))
                  "TEST_USER" "CONTENT_COLUMN"
                ∈ fst (load sample_world (sample_loader "test_table" (Some ["ID"])))).
  { apply list_elem_of_further, list_elem_of_here. }
  split; [exact Hin|].
  destruct (executed_statements _ _ _ Hin) as (o & c & Ho & Hc & Hv & _).
  exists o, c. auto.
Defined.

(** X4: a table load that returns documents and requested extra columns
    had at most three of them, got the catalog rows, and found each
    requested name to match the identifier pattern and to be listed in the
    catalog with one of the seven supported types; none of them is
    [__proto__]. *)
Theorem successful_load_columns (w : World) (ld : Loader) (tr : list Stmt)
        (docs : list Document) (cols : list string) :
  loadFromType ld = TABLE → load w ld = (tr, inr docs) → mdata_cols ld = Some cols →
  (length cols <= 3)%nat
  ∧ ∃ o colRows,
      owner ld = Some o
      ∧ columns_answer w (catalog_stmt o (loadFrom ld)) = inr (Some colRows)
      ∧ Forall (fun col =>
                  isValidIdentifier col = true ∧ col ≠ "__proto__"
                  ∧ ∃ ty, build_colTypes colRows !! col = Some ty
                          ∧ ty ∈ supported_types) cols.
Proof.
  intros Ht Hload Hcols.
  destruct (load_success_inv w ld tr docs Ht Hload)
    as (o & c & rows & ur & Hv & Hcat & _).
  destruct (Hcat cols Hcols) as (Hlen & colRows & Hans & Hck).
  split; [exact Hlen|]. exists o, colRows.
  destruct (validate_inr ld o c Hv) as (Ho & _).
  split; [exact Ho|]. split; [exact Hans|].
  apply check_cols_accepted in Hck. eapply Forall_impl; [exact Hck|].
  intros col (Hvalid & ty & Hty & Hin). split; [exact Hvalid|]. split.
  - intros ->. rewrite build_colTypes_no_proto in Hty. discriminate.
  - exists ty. split; [exact Hty|]. apply includes_elem, Hin.
Qed.

(** X4 on the sample connection with the column [ID]. *)
Lemma successful_load_columns_witness :
  ∃ o colRows,
    owner (sample_loader "test_table" (Some ["ID"])) = Some o
    ∧ columns_answer sample_world (catalog_stmt o "test_table") = inr (Some colRows)
    ∧ Forall (fun col =>
                isValidIdentifier col = true ∧ col ≠ "__proto__"
                ∧ ∃ ty, build_colTypes colRows !! col = Some ty ∧ ty ∈ supported_types)
             ["ID"].
Proof.
  destruct (load sample_world (sample_loader "test_table" (Some ["ID"])))
    as [tr [e|docs]] eqn:Hload; [vm_compute in Hload; discriminate|].
  exact (proj2 (successful_load_columns sample_world
                  (sample_loader "test_table" (Some ["ID"])) tr docs ["ID"]
                  eq_refl Hload eq_refl)).
Defined.

Lemma check_cols_first_failure (t : string) (ct : gmap string string)
      (pre post : list string) (col : string) (e : Exn) :
  Forall (column_accepted ct) pre → check_col t ct col = inl e →
  check_cols t ct (pre ++ col :: post)%list = inl e.
Proof.
  intros Hpre Hcol. induction Hpre as [|x pre Hx _ IH].
  - cbn [app check_cols]. rewrite Hcol. reflexivity.
  - cbn [app check_cols]. apply (check_col_accepted t) in Hx. rewrite Hx. exact IH.
Qed.

Lemma load_column_failure (w : World) (ld : Loader) (o c : string)
      (pre post : list string) (col : string) (colRows : list (string * string)) (e : Exn) :
  loadFromType ld = TABLE → validate ld = inr (o, c) →
  mdata_cols ld = Some (pre ++ col :: post)%list →
  (length (pre ++ col :: post)%list <= 3)%nat →
  columns_answer w (catalog_stmt o (loadFrom ld)) = inr (Some colRows) →
  Forall (column_accepted (build_colTypes colRows)) pre →
  check_col (loadFrom ld) (build_colTypes colRows) col = inl e →
  load w ld = ([catalog_stmt o (loadFrom ld)], inl e).
Proof.
  intros Ht Hv Hcols Hlen Hans Hpre Hcol.
  rewrite (load_table w ld Ht), loadFromTable_run, Hv.
  pose proof (query_rows_cases w ld o c) as Hq. cbn zeta in Hq.
  rewrite Hcols in Hq.
  destruct (Nat.ltb_spec 3 (length (pre ++ col :: post)%list)); [lia|].
  rewrite Hans, (check_cols_first_failure _ _ pre post col e Hpre Hcol) in Hq.
  rewrite Hq. reflexivity.
Qed.

(** X5: with a valid configuration and a catalog lookup that returned rows,
    the first requested column that the catalog does not accept ends the
    load after the catalog lookup alone; the main query is not executed.
    A name the catalog does not list gives "Column ... not found in table
    ...", and so does one listed with an empty type; a name listed with a
    type outside the seven supported ones gives "The datatype for the
    column ... is not supported", and so does an unlisted name that is a
    member of [Object.prototype], such as [constructor] or [toString]. *)
Theorem column_rejections (w : World) (ld : Loader) (o c : string)
        (pre post : list string) (col : string) (colRows : list (string * string)) :
  loadFromType ld = TABLE → validate ld = inr (o, c) →
  mdata_cols ld = Some (pre ++ col :: post)%list →
  (length (pre ++ col :: post)%list <= 3)%nat →
  columns_answer w (catalog_stmt o (loadFrom ld)) = inr (Some colRows) →
  Forall (column_accepted (build_colTypes colRows)) pre →
  isValidIdentifier col = true →
  let not_found := Error ("Column " +:+ col +:+ " not found in table " +:+ loadFrom ld) in
  let unsupported := Error ("The datatype for the column " +:+ col +:+ " is not supported") in
  let stop (e : Exn) := load w ld = ([catalog_stmt o (loadFrom ld)], inl e) in
  (build_colTypes colRows !! col = None → JS.assoc col JS.object_prototype = None →
   stop not_found)
  ∧ (build_colTypes colRows !! col = Some EmptyString → stop not_found)
  ∧ (∀ ty, build_colTypes colRows !! col = Some ty → ty ≠ EmptyString →
           includes supported_types ty = false → stop unsupported)
  ∧ (build_colTypes colRows !! col = None → JS.assoc col JS.object_prototype ≠ None →
     stop unsupported).
Proof.
  intros Ht Hv Hcols Hlen Hans Hpre Hvalid. cbn zeta.
  pose proof (load_column_failure w ld o c pre post col colRows) as Hstop.
  assert (Hcheck : ∀ e, check_col (loadFrom ld) (build_colTypes colRows) col = inl e →
                        load w ld = ([catalog_stmt o (loadFrom ld)], inl e)).
  { intros e He. apply (Hstop e); assumption. }
  clear Hstop. unfold check_col, JS.read_prop in Hcheck. rewrite Hvalid in Hcheck.
  cbn [negb] in Hcheck.
  split; [|split; [|split]].
  - intros Hnone Hproto. apply Hcheck. rewrite Hnone, Hproto. reflexivity.
  - intros Hempty. apply Hcheck. rewrite Hempty. reflexivity.
  - intros ty Hty Hne Hinc. apply Hcheck. rewrite Hty.
    destruct (String.eqb_spec ty EmptyString); [contradiction|].
    rewrite Hinc. reflexivity.
  - intros Hnone Hproto. apply Hcheck. rewrite Hnone.
    destruct (JS.assoc col JS.object_prototype); [reflexivity|contradiction].
Qed.

(** X5 on the sample catalog: [AUTHOR] is not listed, [toString] is
    inherited. *)
Lemma column_rejections_witness :
  load sample_world (sample_loader "test_table" (Some ["ID"; "AUTHOR"]))
    = ([catalog_stmt "TEST_USER" "test_table"],
       inl (Error "Column AUTHOR not found in table test_table"))
  ∧ load sample_world (sample_loader "test_table" (Some ["toString"]))
    = ([catalog_stmt "TEST_USER" "test_table"],
       inl (Error "The datatype for the column toString is not supported")).
Proof.
  split.
  - apply (proj1 (column_rejections sample_world
                    (sample_loader "test_table" (Some ["ID"; "AUTHOR"]))
                    "TEST_USER" "CONTENT_COLUMN" ["ID"] [] "AUTHOR"
                    [("ID", "NUMBER"); ("_oid", "VARCHAR2")]
                    eq_refl eq_refl eq_refl ltac:(cbn; lia) eq_refl
                    ltac:(constructor; [split; [reflexivity|exists "NUMBER"; split; reflexivity]
                                       |constructor])
                    eq_refl)); reflexivity.
  - apply (proj2 (proj2 (proj2 (column_rejections sample_world
                    (sample_loader "test_table" (Some ["toString"]))
                    "TEST_USER" "CONTENT_COLUMN" [] [] "toString"
                    [("ID", "NUMBER"); ("_oid", "VARCHAR2")]
                    eq_refl eq_refl eq_refl ltac:(cbn; lia) eq_refl
                    ltac:(constructor) eq_refl)))); [reflexivity|discriminate].
Defined.

(** X6: a failure of the driver ends the load with that very exception, and
    nothing is executed after the failing statement: after the catalog
    lookup, after the main query (the session query is then not executed),
    or after the session query, in which case no document is returned even
    for a table without rows.  A catalog answer without [rows] ends the load
    with "Failed to retrieve column information". *)
Theorem driver_errors_propagate (w : World) (ld : Loader) (o c : string) (e : Exn) :
  loadFromType ld = TABLE → validate ld = inr (o, c) →
  (∀ cols, mdata_cols ld = Some cols → (length cols <= 3)%nat →
     (columns_answer w (catalog_stmt o (loadFrom ld)) = inl e →
      load w ld = ([catalog_stmt o (loadFrom ld)], inl e))
     ∧ (columns_answer w (catalog_stmt o (loadFrom ld)) = inr None →
        load w ld = ([catalog_stmt o (loadFrom ld)],
                     inl (Error "Failed to retrieve column information"))))
  ∧ (catalog_accepts w ld o →
     (rows_answer w (the_main_stmt ld o c) = inl e →
      load w ld = (stmts_to_main ld o c, inl e))
     ∧ (∀ rows, rows_answer w (the_main_stmt ld o c) = inr rows →
                user_answer w user_stmt = inl e →
                load w ld = ((stmts_to_main ld o c ++ [user_stmt])%list, inl e))).
Proof.
  intros Ht Hv. split.
  - intros cols Hcols Hlen.
    pose proof (query_rows_cases w ld o c) as Hq. cbn zeta in Hq. rewrite Hcols in Hq.
    destruct (Nat.ltb_spec 3 (length cols)); [lia|].
    split; intros Hans; rewrite Hans in Hq;
      rewrite (load_table w ld Ht), loadFromTable_run, Hv, Hq; reflexivity.
  - intros Hacc. rewrite (load_accepted w ld o c Ht Hv Hacc). split.
    + intros ->. reflexivity.
    + intros rows -> ->. reflexivity.
Qed.

(** X7: when the main query returns no [rows] field or an empty list, the
    load returns the empty list of documents, having still executed the
    session query; neither the clock nor the random source is consulted. *)
Theorem empty_table_loads_nothing (w : World) (ld : Loader) (o c : string)
        (rows : option (list (gmap string JS.value))) (ur : option (list (list JS.value))) :
  loadFromType ld = TABLE → validate ld = inr (o, c) → catalog_accepts w ld o →
  rows_answer w (the_main_stmt ld o c) = inr rows →
  rows = None ∨ rows = Some [] →
  user_answer w user_stmt = inr ur →
  load w ld = ((stmts_to_main ld o c ++ [user_stmt])%list, inr []).
Proof.
  intros Ht Hv Hacc Hrows Hempty Hu.
  rewrite (load_accepted w ld o c Ht Hv Hacc), Hrows, Hu.
  destruct Hempty as [-> | ->]; reflexivity.
Qed.

(** X6 on a main query and on a session query that the driver rejects. *)
Lemma driver_errors_propagate_witness :
  load (with_rows_answer sample_world (fun _ => inl (External "Error: ORA-00942")))
       (sample_loader "test_table" None)
    = ([the_main_stmt (sample_loader "test_table" None) "TEST_USER" "CONTENT_COLUMN"],
       inl (External "Error: ORA-00942"))
  ∧ load (with_user_answer sample_world (fun _ => inl (External "Error: ORA-03113")))
         (sample_loader "test_table" None)
    = ([the_main_stmt (sample_loader "test_table" None) "TEST_USER" "CONTENT_COLUMN";
        user_stmt],
       inl (External "Error: ORA-03113")).
Proof.
  split.
  - apply (proj1 (proj2 (driver_errors_propagate
             (with_rows_answer sample_world (fun _ => inl (External "Error: ORA-00942")))
             (sample_loader "test_table" None) "TEST_USER" "CONTENT_COLUMN"
             (External "Error: ORA-00942") eq_refl eq_refl)
           ltac:(intros cols Hcols; discriminate Hcols))).
    reflexivity.
  - apply (proj2 (proj2 (driver_errors_propagate
             (with_user_answer sample_world (fun _ => inl (External "Error: ORA-03113")))
             (sample_loader "test_table" None) "TEST_USER" "CONTENT_COLUMN"
             (External "Error: ORA-03113") eq_refl eq_refl)
           ltac:(intros cols Hcols; discriminate Hcols))
           (Some [ sample_row (JS.VStr "<HTML><title>Document 1</title>") "AAA1";
                   sample_row JS.VNull "AAA2" ])); reflexivity.
Defined.

(** X7 on a table without rows, with the column [ID] requested. *)
Lemma empty_table_loads_nothing_witness :
  load (with_rows_answer sample_world (fun _ => inr (Some [])))
       (sample_loader "test_table" (Some ["ID"]))
  = ([catalog_stmt "TEST_USER" "test_table";
      the_main_stmt (sample_loader "test_table" (Some ["ID"])) "TEST_USER" "CONTENT_COLUMN";
      user_stmt], inr []).
Proof.
  apply (empty_table_loads_nothing
           (with_rows_answer sample_world (fun _ => inr (Some [])))
           (sample_loader "test_table" (Some ["ID"])) "TEST_USER" "CONTENT_COLUMN"
           (Some []) (Some []) eq_refl eq_refl sample_catalog_accepts eq_refl
           (or_intror eq_refl) eq_refl).
Defined.

Lemma row_document_text (w : World) (ld : Loader) (o c : string) (u : JS.value)
      (e : Entropy) (row : gmap string JS.value) (doc : Document) :
  row_document w ld o c u e row = inr doc →
  pageContent doc = text_or_empty (JS.get_prop row "TEXT").
Proof.
  unfold row_document. intros H.
  destruct (initial_metadata w row) as [ex|md]; [discriminate|]. cbn [bindE] in H.
  destruct (generateObjectId e _) as [ex|oid]; [discriminate|]. cbn [bindE] in H.
  destruct (JS.get_prop row "TEXT"); injection H as <-; reflexivity.
Qed.

Lemma row_document_unusable (w : World) (ld : Loader) (o c : string) (u : JS.value)
      (e : Entropy) (row : gmap string JS.value) :
  mdata_usable row = false →
  row_document w ld o c u e row = inl (TypeError "data.startsWith is not a function").
Proof.
  unfold row_document, initial_metadata, mdata_usable. cbn zeta.
  destruct (JS.get_prop row "MDATA") as [| |data|nz str|s]; cbn [JS.truthy negb];
    try discriminate.
  - intros H. apply negb_false_iff in H. rewrite H. reflexivity.
  - reflexivity.
Qed.

Lemma rows_documents_first_failure (w : World) (ld : Loader) (o c : string) (u : JS.value)
      (pre post : list (gmap string JS.value)) (row : gmap string JS.value) (e : Exn) :
  ∀ k : nat,
    (∀ i r, pre !! i = Some r →
            mdata_usable r = true ∧ entropy_in_range (entropy w (k + i)) = true) →
    row_document w ld o c u (entropy w (k + length pre)) row = inl e →
    rows_documents w ld o c u k (pre ++ row :: post) = inl e.
Proof.
  induction pre as [|r pre IH]; intros k Hpre Hrow; cbn [app rows_documents].
  - cbn [length] in Hrow. rewrite Nat.add_0_r in Hrow. rewrite Hrow. reflexivity.
  - destruct (Hpre 0%nat r eq_refl) as [Hm He]. rewrite Nat.add_0_r in He.
    destruct (row_document_ok w ld o c u _ r Hm He) as [d ->]. cbn [bindE].
    rewrite (IH (S k)); [reflexivity| |].
    + intros i r' Hi. replace (S k + i)%nat with (k + S i)%nat by lia.
      apply (Hpre (S i)), Hi.
    + replace (S k + length pre)%nat with (k + length (r :: pre))%nat by (cbn; lia).
      exact Hrow.
Qed.

(** X8: a successful table load returns exactly one document per row of the
    main query, in the order of the rows; the page content of each is the
    [TEXT] of its row as it is, and the empty string when [TEXT] is [null]
    or absent. *)
Theorem one_document_per_row (w : World) (ld : Loader) (tr : list Stmt)
        (docs : list Document) :
  loadFromType ld = TABLE → load w ld = (tr, inr docs) →
  ∃ o c rows,
    validate ld = inr (o, c)
    ∧ rows_answer w (the_main_stmt ld o c) = inr rows
    ∧ length docs = length (default [] rows)
    ∧ ∀ i doc, docs !! i = Some doc →
        ∃ row, default [] rows !! i = Some row
               ∧ pageContent doc = text_or_empty (JS.get_prop row "TEXT").
Proof.
  intros Ht Hload.
  destruct (load_success_inv w ld tr docs Ht Hload)
    as (o & c & rows & ur & Hv & _ & Hrows & _ & Hdocs).
  exists o, c, rows. split; [exact Hv|]. split; [exact Hrows|].
  destruct rows as [rs|]; unfold default; cbn [from_option id].
  - destruct (rows_documents_inv _ _ _ _ _ _ _ _ Hdocs) as [Hlen Hinv].
    split; [exact Hlen|]. intros i doc Hi.
    destruct (Hinv i doc Hi) as (row & Hrow & Hrd). exists row. split; [exact Hrow|].
    apply (row_document_text _ _ _ _ _ _ _ _ Hrd).
  - injection Hdocs as <-. split; [reflexivity|]. intros i doc Hi. discriminate.
Qed.

(** X8 on the two sample rows. *)
Lemma one_document_per_row_witness :
  ∃ docs, snd (load sample_world (sample_loader "test_table" None)) = inr docs
          ∧ length docs = 2%nat.
Proof.
  destruct (load sample_world (sample_loader "test_table" None))
    as [tr [e|docs]] eqn:Hload; [vm_compute in Hload; discriminate|].
  exists docs. split; [reflexivity|].
  destruct (one_document_per_row sample_world (sample_loader "test_table" None) tr docs
              eq_refl Hload)
    as (o & c & rows & Hv & Hrows & Hlen & _).
  cbn in Hrows. injection Hrows as <-. exact Hlen.
Defined.

(** X9: the loop calls [startsWith] on any truthy [MDATA]; a row whose
    [MDATA] is a truthy value that is not a string (a large object, a
    non-zero number) therefore ends the whole load with a [TypeError], the
    documents built from the rows before it being discarded. *)
Theorem unusable_mdata_aborts (w : World) (ld : Loader) (o c : string)
        (pre post : list (gmap string JS.value)) (row : gmap string JS.value)
        (ur : option (list (list JS.value))) :
  loadFromType ld = TABLE → validate ld = inr (o, c) → catalog_accepts w ld o →
  rows_answer w (the_main_stmt ld o c) = inr (Some (pre ++ row :: post)%list) →
  user_answer w user_stmt = inr ur →
  (∀ i r, pre !! i = Some r →
          mdata_usable r = true ∧ entropy_in_range (entropy w i) = true) →
  mdata_usable row = false →
  load w ld = ((stmts_to_main ld o c ++ [user_stmt])%list,
               inl (TypeError "data.startsWith is not a function")).
Proof.
  intros Ht Hv Hacc Hrows Hu Hpre Hrow.
  rewrite (load_accepted w ld o c Ht Hv Hacc), Hrows, Hu.
  rewrite (rows_documents_first_failure w ld o c (username_of ur) pre post row
             (TypeError "data.startsWith is not a function") 0%nat); [reflexivity| |].
  - intros i r Hi. cbn [Nat.add]. apply Hpre, Hi.
  - apply row_document_unusable, Hrow.
Qed.

(** X9 on a second row whose [MDATA] is a large object. *)
Lemma unusable_mdata_aborts_witness :
  load lob_world (sample_loader "test_table" None)
  = ([the_main_stmt (sample_loader "test_table" None) "TEST_USER" "CONTENT_COLUMN";
      user_stmt],
     inl (TypeError "data.startsWith is not a function")).
Proof.
  apply (unusable_mdata_aborts lob_world (sample_loader "test_table" None)
           "TEST_USER" "CONTENT_COLUMN"
           [sample_row (JS.VStr "plain") "AAA1"] []
           (sample_row (JS.VObject "[object Object]") "AAA2")
           (Some [[JS.VStr "SCOTT"]])
           eq_refl eq_refl ltac:(intros cols Hcols; discriminate Hcols) eq_refl eq_refl).
  - intros [|i] r Hi; cbn in Hi; [|discriminate]. injection Hi as <-. split; reflexivity.
  - reflexivity.
Defined.

Lemma lookup_set_prop_agree {V} (k' k : string) (v : V) (m1 m2 : gmap string V) :
  m1 !! k = m2 !! k → JS.set_prop k' v m1 !! k = JS.set_prop k' v m2 !! k.
Proof.
  intros H. unfold JS.set_prop. destruct (String.eqb k' "__proto__"); [exact H|].
  destruct (decide (k' = k)) as [->|Hne].
  - rewrite !lookup_insert_eq. reflexivity.
  - rewrite !lookup_insert_ne by exact Hne. exact H.
Qed.

Lemma copy_columns_agree (row : gmap string JS.value) (cols : list string) (k : string) :
  ∀ m1 m2 : gmap string JS.value,
    m1 !! k = m2 !! k → copy_columns row cols m1 !! k = copy_columns row cols m2 !! k.
Proof.
  induction cols as [|col cols IH]; intros m1 m2 H; [exact H|].
  rewrite !copy_columns_cons. apply IH, lookup_set_prop_agree, H.
Qed.

Lemma copy_columns_lookup_col (row : gmap string JS.value) (cols : list string)
      (col : string) :
  col ≠ "__proto__" →
  ∀ md : gmap string JS.value,
    col ∈ cols → copy_columns row cols md !! col = Some (JS.get_prop row col).
Proof.
  intros Hne. induction cols as [|x cols IH]; intros md Hin.
  - apply elem_of_nil in Hin. contradiction.
  - rewrite copy_columns_cons.
    destruct (decide (col ∈ cols)) as [Hlater|Hnot]; [apply IH, Hlater|].
    apply elem_of_cons in Hin as [<-|Hin]; [|contradiction].
    rewrite copy_columns_lookup_other by exact Hnot.
    rewrite set_prop_insert by exact Hne. apply lookup_insert_eq.
Qed.

(** The i-th document of a load, traced back to its row. *)
Lemma loaded_document_shape (w : World) (ld : Loader) (i : nat) (doc : Document) :
  loaded_document w ld i = Some doc →
  ∃ o c rows row ur,
    validate ld = inr (o, c)
    ∧ rows_answer w (the_main_stmt ld o c) = inr (Some rows)
    ∧ rows !! i = Some row
    ∧ user_answer w user_stmt = inr ur
    ∧ Forall (fun col => col ≠ "__proto__") (requested_cols ld)
    ∧ row_document w ld o c (username_of ur) (entropy w i) row = inr doc.
Proof.
  intros Hdoc.
  assert (Ht : loadFromType ld = TABLE).
  { unfold loaded_document, load in Hdoc.
    destruct (loadFromType ld); [discriminate Hdoc|discriminate Hdoc|reflexivity]. }
  unfold loaded_document in Hdoc.
  destruct (load w ld) as [tr [e|docs]] eqn:Hload; [discriminate|]. cbn [snd] in Hdoc.
  destruct (load_success_inv w ld tr docs Ht Hload)
    as (o & c & rows & ur & Hv & Hcat & Hrows & Hu & Hdocs).
  destruct rows as [rs|]; [|injection Hdocs as <-; discriminate].
  destruct (rows_documents_inv _ _ _ _ _ _ _ _ Hdocs) as [_ Hinv].
  destruct (Hinv i doc Hdoc) as (row & Hrow & Hrd).
  exists o, c, rs, row, ur. repeat (split; [assumption|]). split; [|exact Hrd].
  unfold requested_cols. destruct (mdata_cols ld) as [cols|]; [|constructor].
  destruct (Hcat cols eq_refl) as (_ & colRows & _ & Hck). cbn.
  apply check_cols_accepted in Hck. eapply Forall_impl; [exact Hck|].
  intros col (_ & ty & Hty & _) ->. rewrite build_colTypes_no_proto in Hty. discriminate.
Qed.

(** X10: the session user enters a document only through [_oid].  Two
    loads that differ only in the answer to the session query give, at
    every index, documents with the same page content and the same metadata
    at every key other than [_oid]. *)
Theorem session_user_only_in_oid (w : World)
        (ua : Stmt -> Exn + option (list (list JS.value)))
        (ld : Loader) (i : nat) (d1 d2 : Document) :
  loaded_document w ld i = Some d1 →
  loaded_document (with_user_answer w ua) ld i = Some d2 →
  pageContent d1 = pageContent d2
  ∧ ∀ k, k ≠ "_oid" → doc_metadata d1 !! k = doc_metadata d2 !! k.
Proof.
  intros H1 H2.
  destruct (loaded_document_shape w ld i d1 H1)
    as (o & c & rows & row & ur & Hv & Hrows & Hrow & _ & _ & Hrd1).
  destruct (loaded_document_shape _ ld i d2 H2)
    as (o' & c' & rows' & row' & ur' & Hv' & Hrows' & Hrow' & _ & _ & Hrd2).
  rewrite Hv in Hv'. injection Hv' as <- <-.
  cbn [with_user_answer rows_answer] in Hrows'. rewrite Hrows in Hrows'.
  injection Hrows' as <-. rewrite Hrow in Hrow'. injection Hrow' as <-.
  split.
  - rewrite (row_document_text _ _ _ _ _ _ _ _ Hrd1), (row_document_text _ _ _ _ _ _ _ _ Hrd2).
    reflexivity.
  - intros k Hk.
    destruct (row_document_inv _ _ _ _ _ _ _ _ Hrd1) as (oid1 & _ & ->).
    destruct (row_document_inv _ _ _ _ _ _ _ _ Hrd2) as (oid2 & _ & ->).
    cbn [with_user_answer tokenize]. apply copy_columns_agree.
    destruct (decide (k = "_rowid")) as [->|Hr].
    + rewrite !lookup_insert_eq. reflexivity.
    + rewrite !(lookup_insert_ne _ "_rowid") by congruence.
      rewrite !(lookup_insert_ne _ "_oid") by congruence. reflexivity.
Qed.

(** X10 on the sample rows, with and without a session user. *)
Lemma session_user_only_in_oid_witness :
  ∃ d1 d2,
    loaded_document sample_world (sample_loader "test_table" (Some ["ID"])) 0 = Some d1
    ∧ loaded_document (with_user_answer sample_world (fun _ => inr (Some [[JS.VStr "SCOTT"]])))
        (sample_loader "test_table" (Some ["ID"])) 0 = Some d2
    ∧ pageContent d1 = pageContent d2
    ∧ doc_metadata d1 !! "title" = doc_metadata d2 !! "title".
Proof.
  destruct (loaded_document sample_world (sample_loader "test_table" (Some ["ID"])) 0)
    as [d1|] eqn:H1; [|vm_compute in H1; discriminate].
  destruct (loaded_document
              (with_user_answer sample_world (fun _ => inr (Some [[JS.VStr "SCOTT"]])))
              (sample_loader "test_table" (Some ["ID"])) 0)
    as [d2|] eqn:H2; [|vm_compute in H2; discriminate].
  exists d1, d2. split; [reflexivity|]. split; [reflexivity|].
  destruct (session_user_only_in_oid _ _ _ _ _ _ H1 H2) as [Htext Hmeta].
  split; [exact Htext|]. apply Hmeta. discriminate.
Defined.

(** X11: in a document of a table load, every key other than [_oid],
    [_rowid] and the requested columns holds exactly what the HTML parser
    produced for the row: the title and the meta tags are passed on
    unchanged, and no other key appears. *)
Theorem html_metadata_kept (w : World) (ld : Loader) (i : nat) (doc : Document) :
  loaded_document w ld i = Some doc →
  ∃ o c rows row,
    validate ld = inr (o, c)
    ∧ rows_answer w (the_main_stmt ld o c) = inr (Some rows)
    ∧ rows !! i = Some row
    ∧ ∀ k, k ≠ "_oid" → k ≠ "_rowid" → k ∉ requested_cols ld →
           doc_metadata doc !! k
           = parsed_metadata (tokenize w) (JS.get_prop row "MDATA") !! k.
Proof.
  intros Hdoc.
  destruct (loaded_document_shape w ld i doc Hdoc)
    as (o & c & rows & row & ur & Hv & Hrows & Hrow & _ & _ & Hrd).
  exists o, c, rows, row. repeat (split; [assumption|]).
  intros k Hoid Hrowid Hcols.
  destruct (row_document_inv _ _ _ _ _ _ _ _ Hrd) as (oid & _ & ->).
  rewrite copy_columns_lookup_other by exact Hcols.
  rewrite !lookup_insert_ne by congruence. reflexivity.
Qed.

(** X11 on the first sample row: the title comes from the HTML rendering. *)
Lemma html_metadata_kept_witness :
  ∃ doc,
    loaded_document sample_world (sample_loader "test_table" (Some ["ID"])) 0 = Some doc
    ∧ doc_metadata doc !! "title" = Some (JS.VStr "Document 1").
Proof.
  destruct (loaded_document sample_world (sample_loader "test_table" (Some ["ID"])) 0)
    as [doc|] eqn:Hdoc; [|vm_compute in Hdoc; discriminate].
  exists doc. split; [reflexivity|].
  destruct (html_metadata_kept _ _ _ _ Hdoc) as (o & c & rows & row & _ & Hrows & Hrow & Hk).
  cbn in Hrows. injection Hrows as <-. cbn in Hrow. injection Hrow as <-.
  rewrite (Hk "title"); [reflexivity|discriminate|discriminate|].
  cbn. intros Hin. apply list_elem_of_singleton in Hin. discriminate.
Defined.

(** X12: in a document of a table load, every requested extra column holds
    the value the row has under that name, copied as it is ([undefined]
    when the row has no such property), whatever the HTML metadata or the
    reserved keys held under the same name. *)
Theorem requested_columns_copied (w : World) (ld : Loader) (i : nat) (doc : Document) :
  loaded_document w ld i = Some doc →
  ∃ o c rows row,
    validate ld = inr (o, c)
    ∧ rows_answer w (the_main_stmt ld o c) = inr (Some rows)
    ∧ rows !! i = Some row
    ∧ ∀ col, col ∈ requested_cols ld →
             doc_metadata doc !! col = Some (JS.get_prop row col).
Proof.
  intros Hdoc.
  destruct (loaded_document_shape w ld i doc Hdoc)
    as (o & c & rows & row & ur & Hv & Hrows & Hrow & _ & Hproto & Hrd).
  exists o, c, rows, row. repeat (split; [assumption|]).
  intros col Hcol.
  destruct (row_document_inv _ _ _ _ _ _ _ _ Hrd) as (oid & _ & ->).
  apply copy_columns_lookup_col; [|exact Hcol].
  rewrite Forall_forall in Hproto. apply Hproto, Hcol.
Qed.

(** X12 on the second sample row and the column [ID]. *)
Lemma requested_columns_copied_witness :
  ∃ doc,
    loaded_document sample_world (sample_loader "test_table" (Some ["ID"])) 1 = Some doc
    ∧ doc_metadata doc !! "ID" = Some (JS.VNum true "7").
Proof.
  destruct (loaded_document sample_world (sample_loader "test_table" (Some ["ID"])) 1)
    as [doc|] eqn:Hdoc; [|vm_compute in Hdoc; discriminate].
  exists doc. split; [reflexivity|].
  destruct (requested_columns_copied _ _ _ _ Hdoc)
    as (o & c & rows & row & _ & Hrows & Hrow & Hcol).
  cbn in Hrows. injection Hrows as <-. cbn in Hrow. injection Hrow as <-.
  rewrite (Hcol "ID"); [reflexivity|]. cbn. apply list_elem_of_here.
Defined.

End TablePath.

(** * Further properties: the metadata parser *)

Section ParserKeys.

Lemma attr_value_name_in (attribs : list (string * string)) (e : string) :
  attr_value "name" (map (fun '(n, v) => (n, Some v)) attribs) = Some (Some e) →
  e ∈ map snd (List.filter (fun '(k, _) => String.eqb k "name") attribs).
Proof.
  induction attribs as [|[n v] rest IH]; cbn [map attr_value List.filter]; [discriminate|].
  destruct (attr_value "name" (map (fun '(n0, v0) => (n0, Some v0)) rest)) as [found|].
  - intros [= ->]. destruct (String.eqb n "name"); [apply list_elem_of_further|]; apply IH;
      reflexivity.
  - destruct (String.eqb n "name"); [|discriminate].
    intros [= <-]. apply list_elem_of_here.
Qed.

Lemma dom_set_prop_no_proto {V} (k : string) (v : V) (o : gmap string V) :
  o !! "__proto__" = None → JS.set_prop k v o !! "__proto__" = None.
Proof.
  intros H. unfold JS.set_prop. destruct (String.eqb_spec k "__proto__"); [exact H|].
  rewrite lookup_insert_ne by assumption. exact H.
Qed.

(** One event: keys are kept, and the only keys that can appear are
    [title] and the names of the [meta] tag. *)
Lemma dispatch_keys (p : t) (ev : SaxEvent) :
  dom (metadata p) ⊆ dom (metadata (dispatch p ev))
  ∧ dom (metadata (dispatch p ev))
    ⊆ dom (metadata p) ∪ {["title"]} ∪ list_to_set (meta_names [ev])
  ∧ (metadata p !! "__proto__" = None → metadata (dispatch p ev) !! "__proto__" = None).
Proof.
  destruct ev as [n attribs|d]; cbn [dispatch meta_names flat_map].
  - unfold handleStartTag. rewrite scan_attrs_last.
    destruct (String.eqb n "meta").
    + destruct (attr_value "name" (map (fun '(n0, v) => (n0, Some v)) attribs))
        as [[e|]|] eqn:Hname; unfold default; cbn [from_option id].
      * destruct (negb (String.eqb e EmptyString)); cbn [metadata].
        -- apply attr_value_name_in in Hname. rewrite app_nil_r.
           destruct (dom_set_prop e
                       (from_option id "N/A"
                          match attr_value "content" (map (fun '(n0, v) => (n0, Some v)) attribs) with
                          | Some v => v
                          | None => None
                          end) (metadata p)) as [D1 D2].
           split; [exact D1|]. split; [|apply dom_set_prop_no_proto].
           etransitivity; [exact D2|]. intros x Hx.
           apply elem_of_union in Hx as [Hx|Hx].
           ++ apply elem_of_singleton in Hx. subst x.
              apply elem_of_union_r, elem_of_list_to_set, Hname.
           ++ apply elem_of_union_l, elem_of_union_l, Hx.
        -- split; [reflexivity|]. split; [set_solver|auto].
      * cbn. split; [reflexivity|]. split; [set_solver|auto].
      * split; [reflexivity|]. split; [set_solver|auto].
    + destruct (String.eqb n "title"); cbn [metadata];
        (split; [reflexivity|]; split; [set_solver|auto]).
  - unfold handleData. destruct (match_ p); cbn [metadata].
    + destruct (dom_set_prop "title" d (metadata p)) as [D1 D2].
      split; [exact D1|]. split; [|apply dom_set_prop_no_proto].
      etransitivity; [exact D2|]. intros x Hx.
      apply elem_of_union in Hx as [Hx|Hx];
        [apply elem_of_union_l, elem_of_union_r, Hx
        |apply elem_of_union_l, elem_of_union_l, Hx].
    + split; [reflexivity|]. split; [set_solver|auto].
Qed.

Lemma meta_names_cons (ev : SaxEvent) (evs : list SaxEvent) :
  meta_names (ev :: evs) = (meta_names [ev] ++ meta_names evs)%list.
Proof. unfold meta_names. cbn [flat_map]. rewrite app_nil_r. reflexivity. Qed.

(** X13: whatever events the parser is fed, it never removes a key, the
    only keys it adds are [title] and values of [name] attributes of [meta]
    tags, and it never creates a key [__proto__]. *)
Theorem parser_keys (evs : list SaxEvent) (p : t) :
  let p' := fold_left dispatch evs p in
  dom (metadata p) ⊆ dom (metadata p')
  ∧ dom (metadata p') ⊆ dom (metadata p) ∪ {["title"]} ∪ list_to_set (meta_names evs)
  ∧ (metadata p !! "__proto__" = None → metadata p' !! "__proto__" = None).
Proof.
  cbn zeta. revert p. induction evs as [|ev evs IH]; intros p.
  - cbn. split; [reflexivity|]. split; [|auto].
    intros x Hx. apply elem_of_union_l, elem_of_union_l, Hx.
  - cbn [fold_left]. destruct (IH (dispatch p ev)) as (I1 & I2 & I3).
    destruct (dispatch_keys p ev) as (D1 & D2 & D3).
    rewrite meta_names_cons, list_to_set_app_L.
    split; [etransitivity; eassumption|]. split; [|auto].
    etransitivity; [exact I2|]. intros x Hx.
    apply elem_of_union in Hx as [Hx|Hx].
    + apply elem_of_union in Hx as [Hx|Hx].
      * apply D2 in Hx. apply elem_of_union in Hx as [Hx|Hx].
        -- apply elem_of_union_l, Hx.
        -- apply elem_of_union_r, elem_of_union_l, Hx.
      * apply elem_of_union_l, elem_of_union_r, Hx.
    + apply elem_of_union_r, elem_of_union_r, Hx.
Qed.

(** X13 on the sample events. *)
Lemma parser_keys_witness :
  metadata (parse sample_tokenize new "<HTML>") !! "__proto__" = None.
Proof.
  apply (proj2 (proj2 (parser_keys (sample_tokenize "<HTML>") new))). reflexivity.
Defined.

Lemma dispatch_no_title (p : t) (ev : SaxEvent) :
  is_title_open ev = false → "title" ∉ meta_names [ev] →
  match_ p = false → metadata p !! "title" = None →
  match_ (dispatch p ev) = false ∧ metadata (dispatch p ev) !! "title" = None.
Proof.
  intros Hev Hnames Hflag Hnone. destruct ev as [n attribs|d].
  - cbn [is_title_open] in Hev. cbn [dispatch].
    split; [apply handleStartTag_other_disarmed; assumption|].
    unfold handleStartTag. destruct (String.eqb n "meta") eqn:Hmeta.
    + rewrite scan_attrs_last.
      destruct (attr_value "name" (map (fun '(n0, v) => (n0, Some v)) attribs))
        as [[e|]|] eqn:Hname; unfold default; cbn [from_option id]; try exact Hnone.
      destruct (negb (String.eqb e EmptyString)); [|exact Hnone]. cbn [metadata].
      rewrite lookup_set_prop_ne; [exact Hnone|]. intros ->. apply Hnames.
      cbn [meta_names flat_map]. rewrite Hmeta, app_nil_r.
      apply attr_value_name_in, Hname.
    + rewrite Hev. exact Hnone.
  - cbn [dispatch]. rewrite handleData_disarmed by exact Hflag. auto.
Qed.

(** X14: when no [title] tag is opened and no [meta] tag is named [title],
    a parser that starts disarmed and without a title ends without one:
    text events alone never set it. *)
Theorem no_title_without_title_tag (evs : list SaxEvent) (p : t) :
  Forall (fun ev => is_title_open ev = false) evs →
  "title" ∉ meta_names evs →
  match_ p = false → metadata p !! "title" = None →
  match_ (fold_left dispatch evs p) = false
  ∧ metadata (fold_left dispatch evs p) !! "title" = None.
Proof.
  intros Hevs. revert p. induction Hevs as [|ev evs Hev _ IH]; intros p Hnames Hflag Hnone.
  - auto.
  - cbn [fold_left]. rewrite meta_names_cons in Hnames.
    apply not_elem_of_app in Hnames as [Hn1 Hn2].
    destruct (dispatch_no_title p ev Hev Hn1 Hflag Hnone) as [Hf Ht].
    apply IH; assumption.
Qed.

(** X14 on a document with a heading, a text and a meta tag. *)
Lemma no_title_without_title_tag_witness :
  metadata (fold_left dispatch
              [ onopentag "h1" []; ontext "Heading";
                onopentag "meta" [("name", "author"); ("content", "Bob")] ] new)
    !! "title" = None.
Proof.
  apply (no_title_without_title_tag
           [ onopentag "h1" []; ontext "Heading";
             onopentag "meta" [("name", "author"); ("content", "Bob")] ] new).
  - repeat constructor.
  - cbn. intros Hin. apply list_elem_of_singleton in Hin. discriminate.
  - reflexivity.
  - reflexivity.
Defined.

End ParserKeys.

(** * Further properties: the object id *)

Section ObjectIdLayout.

Import OracleDocReader.

Lemma generateObjectId_inv (e : Entropy) (inputString : option string) (oid : string) :
  generateObjectId e inputString = inr oid →
  uint32 (now_ms e / 1000) ∧ uint32 (counter_draw e)
  ∧ oid = Buffer.toString_hex
            (object_id_bytes (now_ms e / 1000) (effective_seed e inputString)
                             (counter_draw e)).
Proof.
  intros H.
  assert (Hts : uint32 (now_ms e / 1000)).
  { unfold generateObjectId, Buffer.writeUInt32BE in H. cbn zeta in H. unfold uint32.
    destruct (Z.leb_spec 0 (now_ms e / 1000)); [|discriminate].
    destruct (Z.leb_spec (now_ms e / 1000) 4294967295); [lia|discriminate]. }
  assert (Hctr : uint32 (counter_draw e)).
  { unfold generateObjectId in H. cbn zeta in H.
    rewrite (writeUInt32BE_in_range _ Hts) in H. cbn [bindE] in H.
    unfold Buffer.writeUInt32BE in H. unfold uint32.
    destruct (Z.leb_spec 0 (counter_draw e)); [|discriminate].
    destruct (Z.leb_spec (counter_draw e) 4294967295); [lia|discriminate]. }
  split; [exact Hts|]. split; [exact Hctr|].
  rewrite (generateObjectId_in_range e inputString Hts Hctr) in H.
  injection H as <-. reflexivity.
Qed.

(** X15: [generateObjectId] returns an id exactly when the seconds since
    the epoch and the drawn counter both fit an unsigned 32-bit field;
    otherwise it throws, whatever the seed. *)
Theorem generateObjectId_succeeds_iff (e : Entropy) (inputString : option string) :
  (∃ oid, generateObjectId e inputString = inr oid)
  ↔ uint32 (now_ms e / 1000) ∧ uint32 (counter_draw e).
Proof.
  split.
  - intros [oid H]. destruct (generateObjectId_inv e inputString oid H) as (H1 & H2 & _).
    auto.
  - intros [Hts Hctr]. eexists. apply generateObjectId_in_range; assumption.
Qed.

(** X15 on the sample entropy. *)
Lemma generateObjectId_succeeds_iff_witness :
  ∃ oid, generateObjectId sample_entropy (Some "seed") = inr oid.
Proof.
  apply (proj2 (generateObjectId_succeeds_iff sample_entropy (Some "seed"))).
  split; vm_compute; split; discriminate.
Defined.

Lemma toString_hex_app (l1 l2 : list Z) :
  Buffer.toString_hex (l1 ++ l2)
  = Buffer.toString_hex l1 +:+ Buffer.toString_hex l2.
Proof.
  induction l1 as [|b l1 IH]; [reflexivity|].
  cbn [app Buffer.toString_hex String.append]. rewrite IH. reflexivity.
Qed.

(** X16: with the clock and the counter fixed, the ids of all seeds share
    their first eight characters (the seconds, in hexadecimal) and their
    last eight (the counter); the seed decides only the sixteen characters
    in between. *)
Theorem object_id_layout (e : Entropy) :
  uint32 (now_ms e / 1000) → uint32 (counter_draw e) →
  let pre := Buffer.toString_hex (Sha256.be_bytes 4 (now_ms e / 1000)) in
  let post := Buffer.toString_hex (Sha256.be_bytes 4 (counter_draw e)) in
  String.length pre = 8%nat ∧ String.length post = 8%nat
  ∧ ∀ inputString, ∃ mid,
      String.length mid = 16%nat
      ∧ generateObjectId e inputString = inr (pre +:+ mid +:+ post).
Proof.
  intros Hts Hctr. cbn zeta. split; [reflexivity|]. split; [reflexivity|].
  intros inputString.
  exists (Buffer.toString_hex (take 8 (Sha256.digest (utf8 (effective_seed e inputString))))).
  split; [rewrite toString_hex_length; reflexivity|].
  rewrite (generateObjectId_in_range e inputString Hts Hctr).
  unfold object_id_bytes. rewrite !toString_hex_app. reflexivity.
Qed.

(** X16 on the sample entropy: seconds [0x6ae78460], counter
    [0x12345678]. *)
Lemma object_id_layout_witness :
  ∃ mid,
    String.length mid = 16%nat
    ∧ generateObjectId sample_entropy (Some "seed") = inr ("6ae78460" +:+ mid +:+ "12345678").
Proof.
  assert (Hts : uint32 (now_ms sample_entropy / 1000)) by (vm_compute; split; discriminate).
  assert (Hctr : uint32 (counter_draw sample_entropy)) by (vm_compute; split; discriminate).
  exact (proj2 (proj2 (object_id_layout sample_entropy Hts Hctr)) (Some "seed")).
Defined.

Lemma hex_digit_compare (x y : Z) :
  0 <= x < 16 → 0 <= y < 16 →
  Ascii.compare (Buffer.hex_digit x) (Buffer.hex_digit y) = (x ?= y).
Proof.
  intros Hx Hy.
  rewrite <- (Z2Nat.id x), <- (Z2Nat.id y) by lia.
  assert (Hn : (Z.to_nat x < 16)%nat) by lia. assert (Hm : (Z.to_nat y < 16)%nat) by lia.
  revert Hn Hm. generalize (Z.to_nat x) (Z.to_nat y). intros n m Hn Hm.
  do 16 (destruct n as [|n];
         [do 16 (destruct m as [|m]; [reflexivity|]); lia|]).
  lia.
Qed.

Lemma hex_byte_compare (a b : Z) (la lb : list Z) :
  is_byte a → is_byte b →
  String.compare (Buffer.toString_hex (a :: la)) (Buffer.toString_hex (b :: lb))
  = match a ?= b with
    | Eq => String.compare (Buffer.toString_hex la) (Buffer.toString_hex lb)
    | cmp => cmp
    end.
Proof.
  unfold is_byte. intros Ha Hb. cbn [Buffer.toString_hex String.compare].
  change 15 with (Z.ones 4). rewrite !Z.land_ones, !Z.shiftr_div_pow2 by lia.
  change (2 ^ 4) with 16.
  rewrite !hex_digit_compare by (Z.div_mod_to_equations; lia).
  destruct (Z.compare_spec (a / 16) (b / 16)) as [Hq|Hq|Hq].
  - destruct (Z.compare_spec (a mod 16) (b mod 16)) as [Hr|Hr|Hr].
    + replace b with a by (Z.div_mod_to_equations; lia). rewrite Z.compare_refl. reflexivity.
    + assert (Hlt : a < b) by (Z.div_mod_to_equations; lia).
      apply Z.compare_lt_iff in Hlt. rewrite Hlt. reflexivity.
    + assert (Hgt : a > b) by (Z.div_mod_to_equations; lia).
      apply Z.compare_gt_iff in Hgt. apply Z.gt_lt_iff in Hgt.
      rewrite Hgt. reflexivity.
  - assert (Hlt : a < b) by (Z.div_mod_to_equations; lia).
    apply Z.compare_lt_iff in Hlt. rewrite Hlt. reflexivity.
  - assert (Hgt : b < a) by (Z.div_mod_to_equations; lia).
    apply Z.compare_gt_iff in Hgt. rewrite Hgt. reflexivity.
Qed.

Lemma hex_compare_prefix (l1 l2 r1 r2 : list Z) :
  length l1 = length l2 → Forall is_byte l1 → Forall is_byte l2 →
  String.compare (Buffer.toString_hex (l1 ++ r1)) (Buffer.toString_hex (l2 ++ r2))
  = match bytes_compare l1 l2 with
    | Eq => String.compare (Buffer.toString_hex r1) (Buffer.toString_hex r2)
    | cmp => cmp
    end.
Proof.
  revert l2. induction l1 as [|a l1 IH]; intros [|b l2] Hlen H1 H2; try discriminate.
  - reflexivity.
  - apply Forall_cons in H1 as [Ha H1]. apply Forall_cons in H2 as [Hb H2].
    cbn [app bytes_compare]. rewrite hex_byte_compare by assumption.
    destruct (a ?= b); [|reflexivity|reflexivity].
    apply IH; [cbn in Hlen; lia|assumption|assumption].
Qed.

Lemma be_bytes_4_bytes (v : Z) : Forall is_byte (Sha256.be_bytes 4 v).
Proof.
  unfold Sha256.be_bytes, is_byte. cbn [seq rev app map].
  change 255 with (Z.ones 8).
  repeat constructor; rewrite Z.land_ones by lia;
    try apply Z.mod_pos_bound; try (apply Z.mod_pos_bound; lia); lia.
Qed.

Lemma be_bytes_4_compare (t1 t2 : Z) :
  uint32 t1 → uint32 t2 → t1 < t2 →
  bytes_compare (Sha256.be_bytes 4 t1) (Sha256.be_bytes 4 t2) = Lt.
Proof.
  unfold uint32. intros H1 H2 Hlt.
  unfold Sha256.be_bytes. cbn [seq rev app map bytes_compare].
  change 255 with (Z.ones 8). rewrite !Z.land_ones by lia.
  rewrite !Z.shiftr_div_pow2 by lia.
  change (2 ^ (8 * Z.of_nat 3)) with (256 * 256 * 256).
  change (2 ^ (8 * Z.of_nat 2)) with (256 * 256).
  change (2 ^ (8 * Z.of_nat 1)) with 256.
  change (2 ^ (8 * Z.of_nat 0)) with 1.
  change (2 ^ 8) with 256.
  rewrite !Z.div_1_r. rewrite <- !Z.div_div by lia.
  destruct (Z.compare_spec ((t1 / 256 / 256 / 256) mod 256) ((t2 / 256 / 256 / 256) mod 256))
    as [E3|L3|G3]; [|reflexivity|exfalso; Z.div_mod_to_equations; lia].
  destruct (Z.compare_spec ((t1 / 256 / 256) mod 256) ((t2 / 256 / 256) mod 256))
    as [E2|L2|G2]; [|reflexivity|exfalso; Z.div_mod_to_equations; lia].
  destruct (Z.compare_spec ((t1 / 256) mod 256) ((t2 / 256) mod 256))
    as [E1|L1|G1]; [|reflexivity|exfalso; Z.div_mod_to_equations; lia].
  destruct (Z.compare_spec (t1 mod 256) (t2 mod 256))
    as [E0|L0|G0]; [exfalso; Z.div_mod_to_equations; lia|reflexivity
                   |exfalso; Z.div_mod_to_equations; lia].
Qed.

(** X17: object ids sort by time.  Of two ids, whatever their seeds and
    counters, the one generated in an earlier second is the smaller string
    in the lexicographic order of characters. *)
Theorem object_ids_sort_by_time (e1 e2 : Entropy) (s1 s2 : option string)
        (oid1 oid2 : string) :
  generateObjectId e1 s1 = inr oid1 → generateObjectId e2 s2 = inr oid2 →
  now_ms e1 / 1000 < now_ms e2 / 1000 →
  String.compare oid1 oid2 = Lt.
Proof.
  intros H1 H2 Hlt.
  destruct (generateObjectId_inv e1 s1 oid1 H1) as (T1 & _ & ->).
  destruct (generateObjectId_inv e2 s2 oid2 H2) as (T2 & _ & ->).
  unfold object_id_bytes.
  rewrite hex_compare_prefix; [|reflexivity|apply be_bytes_4_bytes|apply be_bytes_4_bytes].
  rewrite (be_bytes_4_compare _ _ T1 T2 Hlt). reflexivity.
Qed.

(** X17 on two ids generated one second apart, the later one with the
    smaller counter. *)
Lemma object_ids_sort_by_time_witness :
  String.compare "6ae7846055efd05be3b997d512345678" "6ae7846155efd05be3b997d500000000" = Lt.
Proof.
  apply (object_ids_sort_by_time sample_entropy
           {| now_ms := 1793557601000; seed_draw := fun _ => 0%nat; counter_draw := 0 |}
           (Some "unknown_user$TEST_USER$test_table$CONTENT_COLUMN$AAA1")
           (Some "unknown_user$TEST_USER$test_table$CONTENT_COLUMN$AAA1")).
  - vm_compute. reflexivity.
  - vm_compute. reflexivity.
  - vm_compute. reflexivity.
Defined.

End ObjectIdLayout.

(** * Further properties: the file path *)

Section FilePath.

Import OracleDocReader.

Lemma append_empty_r (s : string) : s +:+ EmptyString = s.
Proof.
  induction s as [|c s IH]; [reflexivity|].
  change (String c s +:+ EmptyString) with (String c (s +:+ EmptyString)).
  rewrite IH. reflexivity.
Qed.

Lemma append_assoc3 (a b c : string) : (a +:+ b) +:+ c = a +:+ (b +:+ c).
Proof.
  induction a as [|x a IH]; [reflexivity|].
  change ((String x a +:+ b) +:+ c) with (String x ((a +:+ b) +:+ c)).
  rewrite IH. reflexivity.
Qed.

Lemma fold_append_acc (chunks : list string) (acc : string) :
  fold_left String.append chunks acc
  = acc +:+ fold_left String.append chunks EmptyString.
Proof.
  revert acc. induction chunks as [|x chunks IH]; intros acc.
  - symmetry. apply append_empty_r.
  - change (fold_left String.append (x :: chunks) acc)
      with (fold_left String.append chunks (acc +:+ x)).
    change (fold_left String.append (x :: chunks) EmptyString)
      with (fold_left String.append chunks x).
    rewrite (IH (acc +:+ x)), (IH x). apply append_assoc3.
Qed.

Lemma concat_empty_cons (x : string) (chunks : list string) :
  String.concat EmptyString (x :: chunks) = x +:+ String.concat EmptyString chunks.
Proof.
  destruct chunks as [|y chunks]; [symmetry; apply append_empty_r|reflexivity].
Qed.

Lemma fold_append_concat (chunks : list string) :
  fold_left String.append chunks EmptyString = String.concat EmptyString chunks.
Proof.
  induction chunks as [|x chunks IH]; [reflexivity|].
  change (fold_left String.append (x :: chunks) EmptyString)
    with (fold_left String.append chunks x).
  rewrite fold_append_acc, IH, concat_empty_cons. reflexivity.
Qed.

(** X18: when the stream ends without error, [readClob] resolves to the
    chunks joined, without separator, in their order of arrival, whatever
    their number and wherever the text is cut (none gives the empty string,
    and two runs of chunks give the two texts one after the other); when
    the stream reports an error, [readClob] rejects with it and the chunks
    already received are lost. *)
Theorem readClob_chunks (chunks : list string) :
  readClob {| lob_chunks := chunks; lob_error := None |}
    = inr (String.concat EmptyString chunks)
  ∧ (∀ c1 c2, chunks = (c1 ++ c2)%list →
       readClob {| lob_chunks := chunks; lob_error := None |}
       = inr (String.concat EmptyString c1 +:+ String.concat EmptyString c2))
  ∧ (∀ first rest, chunks = first :: rest →
       readClob {| lob_chunks := chunks; lob_error := None |}
       = inr (first +:+ String.concat EmptyString rest))
  ∧ ∀ err, readClob {| lob_chunks := chunks; lob_error := Some err |} = inl err.
Proof.
  unfold readClob. cbn [lob_error lob_chunks].
  split; [rewrite fold_append_concat; reflexivity|]. split; [|split; [|reflexivity]].
  - intros c1 c2 ->. rewrite fold_left_app, fold_append_acc, !fold_append_concat.
    reflexivity.
  - intros first rest ->. rewrite fold_append_concat, concat_empty_cons. reflexivity.
Qed.

(** X18 on a text cut in two places. *)
Lemma readClob_chunks_witness :
  readClob {| lob_chunks := ["<HTML><title>Docu"; "ment 1"; "</title>"];
              lob_error := None |}
    = inr "<HTML><title>Document 1</title>"
  ∧ readClob {| lob_chunks := ["<HTML><title>Docu"; "ment 1"; "</title>"];
                lob_error := None |}
    = inr ("<HTML><title>Docu" +:+ "ment 1</title>").
Proof.
  split.
  - apply (proj1 (readClob_chunks ["<HTML><title>Docu"; "ment 1"; "</title>"])).
  - apply (proj1 (proj2 (readClob_chunks ["<HTML><title>Docu"; "ment 1"; "</title>"]))
             ["<HTML><title>Docu"] ["ment 1"; "</title>"]). reflexivity.
Defined.

(** X19: when the file is read, the extraction answers, both large objects
    are read and the session query answers, with the clock and the counter
    in range, [readFile] ends in the call of [Document] on the extracted
    text and a metadata object in which [_file] is the path and [_oid] the
    id generated from the seed made of the session user, a dollar sign and
    the path; every other key is what the HTML parser produced, when the
    rendering carries one of the two signatures, and absent otherwise.
    Tags named [_oid] or [_file] in the rendering are overwritten.  A
    session row without a [USERNAME] property gives the user
    ["undefined"]. *)
Theorem readFile_stamps (w : FileWorld) (filePath : string)
        (params : list (string * string)) (data : list Z) (ob : OutBinds)
        (docData textData : string) (ur : option (list (gmap string JS.value))) :
  fs_readFile w filePath = inr (Some data) →
  extract_answer w data (JSON_stringify params) = inr (Some ob) →
  read_optional_lob (mdata ob) = inr docData →
  read_optional_lob (text ob) = inr textData →
  file_user_answer w = inr ur →
  entropy_in_range (file_entropy w) = true →
  ∃ md oid,
    readFile w filePath params
    = match Document_call w textData md with
      | inr doc => ([], Some doc)
      | inl ex => ([ "An exception occurred: " +:+ exn_to_string ex;
                     "Skip processing " +:+ filePath ], None)
      end
    ∧ generateObjectId (file_entropy w)
        (Some (JS.to_string (file_username ur) +:+ "$" +:+ filePath)) = inr oid
    ∧ md !! "_oid" = Some oid ∧ md !! "_file" = Some filePath
    ∧ (∀ k, k ≠ "_oid" → k ≠ "_file" →
            md !! k
            = (if html_signature docData
               then getMetadata (parse (file_tokenize w) new docData)
               else ∅) !! k)
    ∧ ((∀ row rest, ur = Some (row :: rest) → row !! "USERNAME" = None) →
       JS.to_string (file_username ur) = "undefined").
Proof.
  intros Hfs Hex Hmd Htx Hu He.
  unfold entropy_in_range in He.
  apply andb_prop in He as [He H4]. apply andb_prop in He as [He H3].
  apply andb_prop in He as [H1 H2].
  assert (Hts : uint32 (now_ms (file_entropy w) / 1000)) by (unfold uint32; lia).
  assert (Hctr : uint32 (counter_draw (file_entropy w))) by (unfold uint32; lia).
  pose proof (generateObjectId_in_range (file_entropy w)
                (Some (JS.to_string (file_username ur) +:+ "$" +:+ filePath)) Hts Hctr)
    as Hgen.
  eexists. eexists. split; [|split; [exact Hgen|]].
  - unfold readFile, readFile_body. cbn zeta. rewrite Hfs. cbn [bindE].
    rewrite Hex. cbn [bindE]. unfold read_optional_lob in Hmd, Htx.
    rewrite Hmd. cbn [bindE]. rewrite Htx. cbn [bindE]. rewrite Hu. cbn [bindE].
    fold (file_username ur). rewrite Hgen. cbn [bindE].
    destruct (String.eqb_spec textData EmptyString) as [->|Hne]; reflexivity.
  - rewrite !set_prop_insert by discriminate.
    split; [rewrite lookup_insert_ne by discriminate; apply lookup_insert_eq|].
    split; [apply lookup_insert_eq|]. split.
    + intros k Hk1 Hk2. rewrite !lookup_insert_ne by congruence.
      unfold html_signature. reflexivity.
    + intros Hrow. unfold file_username.
      destruct ur as [[|row rest]|]; try reflexivity.
      unfold JS.get_prop, JS.read_prop. rewrite (Hrow row rest eq_refl). reflexivity.
Qed.

(** X19 on a PDF whose rendering has a title and a tag named [_oid]. *)
Lemma readFile_stamps_witness :
  ∃ doc,
    readFile readable_world "/tmp/report.pdf" [("plaintext", "false")] = ([], Some doc)
    ∧ pageContent doc = JS.VStr "body"
    ∧ doc_metadata doc !! "_file" = Some (JS.VStr "/tmp/report.pdf")
    ∧ doc_metadata doc !! "title" = Some (JS.VStr "Document 1").
Proof.
  destruct (readFile_stamps readable_world "/tmp/report.pdf" [("plaintext", "false")]
              [37; 80; 68; 70]
              {| mdata := Some {| lob_chunks := ["<HTML><title>Docu"; "ment 1</title>"];
                                  lob_error := None |};
                 text := Some {| lob_chunks := ["bo"; "dy"]; lob_error := None |} |}
              "<HTML><title>Document 1</title>" "body"
              (Some [ {[ "0" := JS.VStr "SCOTT" ]} ])
              eq_refl eq_refl eq_refl eq_refl eq_refl eq_refl)
    as (md & oid & Hrun & _ & _ & Hfile & Hkeys & _).
  cbn [readable_world Document_call] in Hrun.
  eexists. split; [exact Hrun|]. cbn [pageContent doc_metadata].
  split; [reflexivity|]. rewrite !lookup_fmap. split.
  - rewrite Hfile. reflexivity.
  - rewrite (Hkeys "title") by discriminate. reflexivity.
Defined.

(** X20: after a successful read and extraction call, a stream error while
    either large object is read, and a failure of the session query, are
    swallowed like the earlier failures: the exception is logged with the
    skipped path and [readFile] resolves to [null]; the chunks already
    received are dropped. *)
Theorem readFile_swallows_stream_errors (w : FileWorld) (filePath : string)
        (params : list (string * string)) (data : list Z) (ob : OutBinds) (ex : Exn) :
  fs_readFile w filePath = inr (Some data) →
  extract_answer w data (JSON_stringify params) = inr (Some ob) →
  read_optional_lob (mdata ob) = inl ex
  ∨ (∃ docData, read_optional_lob (mdata ob) = inr docData
                ∧ read_optional_lob (text ob) = inl ex)
  ∨ (∃ docData textData,
        read_optional_lob (mdata ob) = inr docData
        ∧ read_optional_lob (text ob) = inr textData
        ∧ file_user_answer w = inl ex) →
  readFile w filePath params
  = ([ "An exception occurred: " +:+ exn_to_string ex;
       "Skip processing " +:+ filePath ], None).
Proof.
  intros Hfs Hex Hcases. unfold readFile, readFile_body. cbn zeta.
  rewrite Hfs. cbn [bindE]. rewrite Hex. cbn [bindE].
  unfold read_optional_lob in Hcases.
  destruct Hcases as [H1 | [(d & H1 & H2) | (d & t0 & H1 & H2 & H3)]].
  - rewrite H1. reflexivity.
  - rewrite H1. cbn [bindE]. rewrite H2. reflexivity.
  - rewrite H1. cbn [bindE]. rewrite H2. cbn [bindE]. rewrite H3. reflexivity.
Qed.

(** X20 on a text stream that breaks after its first chunk. *)
Lemma readFile_swallows_stream_errors_witness :
  readFile broken_stream_world "/tmp/report.pdf" [("plaintext", "false")]
  = ([ "An exception occurred: Error: NJS-500"; "Skip processing /tmp/report.pdf" ], None).
Proof.
  apply (readFile_swallows_stream_errors broken_stream_world "/tmp/report.pdf"
           [("plaintext", "false")] [37; 80; 68; 70]
           {| mdata := None;
              text := Some {| lob_chunks := ["bo"];
                              lob_error := Some (External "Error: NJS-500") |} |}
           (External "Error: NJS-500") eq_refl eq_refl).
  right. left. exists EmptyString. split; reflexivity.
Defined.

End FilePath.
